(** * Deep playground, [src/dataset.ts]: data generators, shuffle, CSV import

    A shallow embedding of the TypeScript module [dataset.ts] and the
    properties of its generators, of [shuffle], of [parseCsvTextToExamples]
    and of [generatorFromExamples].

    Conventions of the embedding.
    - A JavaScript [number] is a value of [number]: a finite value, carried
      as an exact rational, or one of the three special values [NaN],
      [+Infinity], [-Infinity].  The special values follow IEEE 754 as
      JavaScript has it (an infinity times zero is [NaN], a non-zero finite
      value divided by zero is an infinity, every comparison with [NaN] is
      false).  Rounding of finite values is not modelled and the two zeros
      are not told apart (a zero divisor counts as [+0]).
    - [Math.sqrt], [Math.log], [Math.sin], [Math.cos] and [Math.PI] are
      fields of the class [MathLib], together with the values that
      ECMAScript fixes for them at the arguments the module reaches.
    - [Math.random] reads a tape of draws, each in [[0, 1)]; the state
      threaded through the generators is the position on the tape.
    - A loop whose exit depends on the draws ([normalRandom]) takes fuel;
      running out of fuel is the outcome [None]. *)

From Stdlib Require Import QArith Qround Qabs Lqa ZArith Lia Ascii String.
From stdpp Require Import gmap strings list.

Local Open Scope Q_scope.

(** * The module *)

(** ** JavaScript numbers *)

Inductive number : Type :=
| NaN
| PInf
| NInf
| Fin (q : Q).

Definition Qzero (q : Q) : bool := Qeq_bool q 0.
Definition Qneg (q : Q) : bool := negb (Qle_bool 0 q).

(** [inf_of neg] is the infinity of the given sign. *)
Definition inf_of (neg : bool) : number := if neg then NInf else PInf.

Definition num_opp (a : number) : number :=
  match a with
  | NaN => NaN
  | PInf => NInf
  | NInf => PInf
  | Fin q => Fin (- q)
  end.

Definition num_add (a b : number) : number :=
  match a, b with
  | NaN, _ | _, NaN => NaN
  | PInf, NInf | NInf, PInf => NaN
  | PInf, _ | _, PInf => PInf
  | NInf, _ | _, NInf => NInf
  | Fin p, Fin q => Fin (p + q)
  end.

Definition num_sub (a b : number) : number := num_add a (num_opp b).

Definition num_mul (a b : number) : number :=
  match a, b with
  | NaN, _ | _, NaN => NaN
  | Fin p, Fin q => Fin (p * q)
  | PInf, PInf | NInf, NInf => PInf
  | PInf, NInf | NInf, PInf => NInf
  | PInf, Fin q | Fin q, PInf => if Qzero q then NaN else inf_of (Qneg q)
  | NInf, Fin q | Fin q, NInf => if Qzero q then NaN else inf_of (negb (Qneg q))
  end.

Definition num_div (a b : number) : number :=
  match a, b with
  | NaN, _ | _, NaN => NaN
  | Fin p, Fin q =>
      if Qzero q then (if Qzero p then NaN else inf_of (Qneg p))
      else Fin (p / q)
  | Fin _, (PInf | NInf) => Fin 0
  | (PInf | NInf), (PInf | NInf) => NaN
  | PInf, Fin q => inf_of (Qneg q)
  | NInf, Fin q => inf_of (negb (Qneg q))
  end.

(** The relational operators; all of them are false on [NaN]. *)
Definition num_le (a b : number) : bool :=
  match a, b with
  | NaN, _ | _, NaN => false
  | NInf, _ | _, PInf => true
  | PInf, _ | _, NInf => false
  | Fin p, Fin q => Qle_bool p q
  end.

Definition num_lt (a b : number) : bool :=
  match a, b with
  | NaN, _ | _, NaN => false
  | PInf, _ | _, NInf => false
  | NInf, _ | _, PInf => true
  | Fin p, Fin q => negb (Qle_bool q p)
  end.

Definition num_gt (a b : number) : bool := num_lt b a.
Definition num_ge (a b : number) : bool := num_le b a.

Definition isNaN (a : number) : bool :=
  match a with NaN => true | _ => false end.

Definition Math_abs (a : number) : number :=
  match a with
  | NaN => NaN
  | PInf | NInf => PInf
  | Fin q => Fin (Qabs q)
  end.

(** [Math.max] and [Math.min] answer [NaN] as soon as one argument is. *)
Definition Math_max (a b : number) : number :=
  match a, b with
  | NaN, _ | _, NaN => NaN
  | _, _ => if num_lt a b then b else a
  end.

Definition Math_min (a b : number) : number :=
  match a, b with
  | NaN, _ | _, NaN => NaN
  | _, _ => if num_lt b a then b else a
  end.

Definition Math_floor (a : number) : number :=
  match a with
  | Fin q => Fin (inject_Z (Qfloor q))
  | _ => a
  end.

Definition of_Z (z : Z) : number := Fin (inject_Z z).
Definition of_nat (n : nat) : number := of_Z (Z.of_nat n).

Declare Scope num_scope.
Delimit Scope num_scope with num.
Bind Scope num_scope with number.
Infix "+" := num_add : num_scope.
Infix "-" := num_sub : num_scope.
Infix "*" := num_mul : num_scope.
Infix "/" := num_div : num_scope.
Notation "- a" := (num_opp a) : num_scope.
Infix "<?" := num_lt : num_scope.
Infix "<=?" := num_le : num_scope.
Infix ">?" := num_gt : num_scope.
Infix ">=?" := num_ge : num_scope.

(** A finite value where a number is expected. *)
Coercion Fin : Q >-> number.

(** Two numbers are the same value: finite values are compared as
    rationals, so that [Fin (2 # 4)] and [Fin (1 # 2)] agree. *)
Definition num_same (a b : number) : Prop :=
  match a, b with
  | NaN, NaN | PInf, PInf | NInf, NInf => True
  | Fin p, Fin q => p == q
  | _, _ => False
  end.

(** ** The implementation-approximated functions of [Math] *)

Class MathLib : Type := {
  Math_sqrt : number -> number;
  Math_log : number -> number;
  Math_sin : number -> number;
  Math_cos : number -> number;
  Math_PI : Q;
  (** ECMAScript: the square root of a finite non-negative value is a
      finite non-negative value, and [Math.sqrt(+Infinity)] is
      [+Infinity]. *)
  Math_sqrt_finite : forall q, 0 <= q -> exists r, Math_sqrt (Fin q) = Fin r /\ 0 <= r;
  Math_sqrt_PInf : Math_sqrt PInf = PInf;
  (** ECMAScript: [Math.log(0)] is [-Infinity]. *)
  Math_log_zero : forall q, q == 0 -> Math_log (Fin q) = NInf
}.

(** ** The tape of [Math.random] *)

Class RandomSource : Type := {
  draw : nat -> Q;
  draw_range : forall i, 0 <= draw i /\ draw i < 1
}.

(** ** Computations that read the tape

    [M A] is a computation that starts at a position of the tape and either
    returns a value with the position it reached, or never returns (the fuel
    of a rejection loop ran out). *)

Definition M (A : Type) : Type := nat -> option (A * nat).

Definition ret {A} (a : A) : M A := fun i => Some (a, i).

Definition bind {A B} (m : M A) (k : A -> M B) : M B :=
  fun i => match m i with
           | Some (a, j) => k a j
           | None => None
           end.

Definition diverge {A} : M A := fun _ => None.

Notation "'let*' x ':=' m 'in' k" := (bind m (fun x => k))
  (at level 10, x name, m at level 100, k at level 200).
Notation "'let*' ' p ':=' m 'in' k" := (bind m (fun p => k))
  (at level 10, p pattern, m at level 100, k at level 200).

(** [for (let i = start; cond(i); i++) body(i)], threading the local
    state [s] of the loop.  [fuel] bounds the number of iterations. *)
Fixpoint for_loop {St : Type} (fuel : nat) (cond : nat -> bool)
    (body : nat -> St -> M St) (i : nat) (s : St) : M St :=
  match fuel with
  | O => diverge
  | S fuel' =>
      if cond i then let* s' := body i s in for_loop fuel' cond body (S i) s'
      else ret s
  end.

(** ** Points *)

(** [type Example2D = {x: number, y: number, label: number}] *)
Record Example2D : Type := { x : number; y : number; label : number }.

(** [type Point = {x: number, y: number}] *)
Record Point : Type := { Point_x : number; Point_y : number }.

(** Modelled from the spec: [d3.scale.linear().domain([d0, d1]).range([r0, r1])],
    with [.clamp(true)] when [clamp] is set; the d3 library is not part of
    the sources.  The argument is taken to its relative position [t] in the
    domain ("linear scale"), [t] is kept within [[0, 1]] when clamping
    ("linearly-scaled-and-clamped"), and the range is interpolated at [t]. *)
Definition d3_scale_linear (d0 d1 r0 r1 : number) (clamp : bool) (v : number) : number :=
  let t := ((v - d0) / (d1 - d0))%num in
  let t := if clamp then Math_max 0 (Math_min 1 t) else t in
  (r0 * (1 - t) + r1 * t)%num.

Section Generators.
Context {math : MathLib} {source : RandomSource}.

Definition Math_random : M number := fun i => Some (Fin (draw i), S i).

(** [function randUniform(a, b) { return Math.random() * (b - a) + a; }] *)
Definition randUniform (a b : number) : M number :=
  let* r := Math_random in
  ret (r * (b - a) + a)%num.

(** The [do ... while (s > 1)] loop of [normalRandom]; it returns the
    accepted [v1] and [s]. *)
Fixpoint normalRandom_loop (fuel : nat) : M (number * number) :=
  match fuel with
  | O => diverge
  | S fuel' =>
      let* r1 := Math_random in
      let v1 := (2 * r1 - 1)%num in
      let* r2 := Math_random in
      let v2 := (2 * r2 - 1)%num in
      let s := (v1 * v1 + v2 * v2)%num in
      if (s >? 1)%num then normalRandom_loop fuel' else ret (v1, s)
  end.

Definition normalRandom (fuel : nat) (mean variance : number) : M number :=
  let* '(v1, s) := normalRandom_loop fuel in
  let result := (Math_sqrt (-2 * Math_log s / s) * v1)%num in
  ret (mean + Math_sqrt variance * result)%num.

(** [function dist(a: Point, b: Point): number] *)
Definition dist (a b : Point) : number :=
  let dx := (Point_x a - Point_x b)%num in
  let dy := (Point_y a - Point_y b)%num in
  Math_sqrt (dx * dx + dy * dy)%num.

(** [for (let i = 0; i < bound; i++) body], the shape of every loop of
    the generators; the index never passes [limit]. *)
Definition for_below {St : Type} (limit : nat) (bound : number)
    (body : nat -> St -> M St) (s : St) : M St :=
  for_loop (S limit) (fun i => (of_nat i <? bound)%num) body 0 s.

Definition push (points : list Example2D) (p : Example2D) : list Example2D :=
  points ++ [p].

(** *** The presets *)

(** The local function [add] of [classifyCsvDummy1]; [pts] and [noise] are
    the variables it captures. *)
Definition classifyCsvDummy1_add (fuel : nat) (noise : number)
    (cx cy label : number) (n : nat) (pts : list Example2D) : M (list Example2D) :=
  for_below n (of_nat n) (fun i pts =>
    let* x := normalRandom fuel cx (0.4 + noise)%num in
    let* y := normalRandom fuel cy (0.4 + noise)%num in
    ret (push pts {| x := x; y := y; label := label |})) pts.

Definition classifyCsvDummy1 (fuel : nat) (numSamples : nat) (noise : number)
    : M (list Example2D) :=
  let pts : list Example2D := [] in
  let add := classifyCsvDummy1_add fuel noise in
  let* pts := add 2.5 2.5 1 80%nat pts in
  let* pts := add (-2.5) (-2.5) (-1) 80%nat pts in
  ret pts.

Definition classifyCsvDummy2 (numSamples : nat) (noise : number)
    : M (list Example2D) :=
  let pts : list Example2D := [] in
  for_below 160 (of_nat 160) (fun i pts =>
    let* c := Math_random in
    let* r :=
      if (c <? 0.5)%num
      then (let* u := randUniform (-1) 1 in ret (1.0 + 0.2 * u)%num)
      else (let* u := randUniform (-1) 1 in ret (3.0 + 0.3 * u)%num) in
    let* t := randUniform 0 (Math_PI * 2)%num in
    let x := (r * Math_cos t)%num in
    let y := (r * Math_sin t)%num in
    let label : number := if (r <? 2.0)%num then 1 else -1 in
    let* jx := randUniform (-1) 1 in
    let x := (x + noise * jx)%num in
    let* jy := randUniform (-1) 1 in
    let y := (y + noise * jy)%num in
    ret (push pts {| x := x; y := y; label := label |})) pts.

Definition regressCsvDummy1 (numSamples : nat) (noise : number)
    : M (list Example2D) :=
  let pts : list Example2D := [] in
  let labelScale := d3_scale_linear (-6) 6 (-1) 1 false in
  for_below 200 (of_nat 200) (fun i pts =>
    let* x := randUniform (-5.5) 5.5 in
    let* y := randUniform (-5.5) 5.5 in
    let* ux := randUniform (-1) 1 in
    let nx := (noise * ux)%num in
    let* uy := randUniform (-1) 1 in
    let ny := (noise * uy)%num in
    let label := labelScale ((x + nx) - (y + ny))%num in
    ret (push pts {| x := x; y := y; label := label |})) pts.

Definition regressCsvDummy2 (numSamples : nat) (noise : number)
    : M (list Example2D) :=
  let centers : list (number * number * number) :=
    [ (Fin (-2.5), Fin 2.0, Fin 1); (Fin 2.5, Fin (-2.0), Fin (-1)) ] in
  let labelScale := d3_scale_linear 0 4 1 0 true in
  let pts : list Example2D := [] in
  for_below 200 (of_nat 200) (fun i pts =>
    let* x := randUniform (-6) 6 in
    let* y := randUniform (-6) 6 in
    let* jx := randUniform (-1) 1 in
    let x := (x + noise * jx)%num in
    let* jy := randUniform (-1) 1 in
    let y := (y + noise * jy)%num in
    let best :=
      fold_left (fun (best : number) '(cx, cy, s) =>
        let v := (s * labelScale (dist {| Point_x := x; Point_y := y |}
                                       {| Point_x := cx; Point_y := cy |}))%num in
        if (Math_abs v >? Math_abs best)%num then v else best) centers (Fin 0) in
    ret (push pts {| x := x; y := y; label := best |})) pts.

(** *** The procedural generators *)

(** The local function [genGauss] of [classifyTwoGaussData]; [points],
    [numSamples] and [variance] are the variables it captures. *)
Definition genGauss (fuel : nat) (numSamples : nat) (variance : number)
    (cx cy label : number) (points : list Example2D) : M (list Example2D) :=
  for_below numSamples (of_nat numSamples / 2)%num (fun i points =>
    let* x := normalRandom fuel cx variance in
    let* y := normalRandom fuel cy variance in
    ret (push points {| x := x; y := y; label := label |})) points.

Definition classifyTwoGaussData (fuel : nat) (numSamples : nat) (noise : number)
    : M (list Example2D) :=
  let points : list Example2D := [] in
  let varianceScale := d3_scale_linear 0 0.5 0.5 4 false in
  let variance := varianceScale noise in
  let* points := genGauss fuel numSamples variance 2 2 1 points in (* positive examples *)
  let* points := genGauss fuel numSamples variance (-2) (-2) (-1) points in (* negative examples *)
  ret points.

Definition regressPlane (numSamples : nat) (noise : number)
    : M (list Example2D) :=
  let radius : number := 6 in
  let labelScale := d3_scale_linear (-10) 10 (-1) 1 false in
  let getLabel (x y : number) := labelScale (x + y)%num in
  let points : list Example2D := [] in
  for_below numSamples (of_nat numSamples) (fun i points =>
    let* x := randUniform (- radius) radius in
    let* y := randUniform (- radius) radius in
    let* ux := randUniform (- radius) radius in
    let noiseX := (ux * noise)%num in
    let* uy := randUniform (- radius) radius in
    let noiseY := (uy * noise)%num in
    let label := getLabel (x + noiseX)%num (y + noiseY)%num in
    ret (push points {| x := x; y := y; label := label |})) points.

(** The six bumps of [regressGaussian]: [cx, cy, sign]. *)
Definition gaussians : list (number * number * number) :=
  [ (Fin (-4), Fin 2.5, Fin 1);
    (Fin 0, Fin 2.5, Fin (-1));
    (Fin 4, Fin 2.5, Fin 1);
    (Fin (-4), Fin (-2.5), Fin (-1));
    (Fin 0, Fin (-2.5), Fin 1);
    (Fin 4, Fin (-2.5), Fin (-1)) ].

(** The [labelScale] of [regressGaussian]. *)
Definition bumpScale : number -> number := d3_scale_linear 0 2 1 0 true.

(** The value of one bump at [(x, y)]: [sign * labelScale(dist(...))]. *)
Definition bump (x y : number) (g : number * number * number) : number :=
  let '(cx, cy, sign) := g in
  (sign * bumpScale (dist {| Point_x := x; Point_y := y |}
                          {| Point_x := cx; Point_y := cy |}))%num.

(** One turn of the [forEach] of [getLabel]. *)
Definition keepLarger (label newLabel : number) : number :=
  if (Math_abs newLabel >? Math_abs label)%num then newLabel else label.

(** [getLabel] of [regressGaussian]. *)
Definition getLabel (x y : number) : number :=
  let label : number := 0 in
  fold_left (fun label g => keepLarger label (bump x y g)) gaussians label.

Definition regressGaussian (numSamples : nat) (noise : number)
    : M (list Example2D) :=
  let points : list Example2D := [] in
  let radius : number := 6 in
  for_below numSamples (of_nat numSamples) (fun i points =>
    let* x := randUniform (- radius) radius in
    let* y := randUniform (- radius) radius in
    let* ux := randUniform (- radius) radius in
    let noiseX := (ux * noise)%num in
    let* uy := randUniform (- radius) radius in
    let noiseY := (uy * noise)%num in
    let label := getLabel (x + noiseX)%num (y + noiseY)%num in
    ret (push points {| x := x; y := y; label := label |})) points.

(** The local function [genSpiral] of [classifySpiralData]; [points], [n]
    and [noise] are the variables it captures. *)
Definition genSpiral (numSamples : nat) (noise n : number)
    (deltaT label : number) (points : list Example2D) : M (list Example2D) :=
  for_below numSamples n (fun i points =>
    let r := (of_nat i / n * 5)%num in
    let t := (1.75 * of_nat i / n * 2 * Math_PI + deltaT)%num in
    let* ux := randUniform (-1) 1 in
    let x := (r * Math_sin t + ux * noise)%num in
    let* uy := randUniform (-1) 1 in
    let y := (r * Math_cos t + uy * noise)%num in
    ret (push points {| x := x; y := y; label := label |})) points.

Definition classifySpiralData (numSamples : nat) (noise : number)
    : M (list Example2D) :=
  let points : list Example2D := [] in
  let n := (of_nat numSamples / 2)%num in
  let* points := genSpiral numSamples noise n 0 1 points in (* positive examples *)
  let* points := genSpiral numSamples noise n Math_PI (-1) points in (* negative examples *)
  ret points.

(** [getCircleLabel] of [classifyCircleData], with [radius = 5]. *)
Definition getCircleLabel (radius : number) (p center : Point) : number :=
  if (dist p center <? radius * 0.5)%num then 1 else -1.

(** The two loops of [classifyCircleData] are the same but for the range
    [[lo, hi)] of the radius [r]. *)
Definition classifyCircleData_loop (numSamples : nat) (noise radius : number)
    (lo hi : number) (points : list Example2D) : M (list Example2D) :=
  for_below numSamples (of_nat numSamples / 2)%num (fun i points =>
    let* r := randUniform lo hi in
    let* angle := randUniform 0 (2 * Math_PI)%num in
    let x := (r * Math_sin angle)%num in
    let y := (r * Math_cos angle)%num in
    let* ux := randUniform (- radius) radius in
    let noiseX := (ux * noise)%num in
    let* uy := randUniform (- radius) radius in
    let noiseY := (uy * noise)%num in
    let label :=
      getCircleLabel radius
        {| Point_x := (x + noiseX)%num; Point_y := (y + noiseY)%num |}
        {| Point_x := 0; Point_y := 0 |} in
    ret (push points {| x := x; y := y; label := label |})) points.

Definition classifyCircleData (numSamples : nat) (noise : number)
    : M (list Example2D) :=
  let points : list Example2D := [] in
  let radius : number := 5 in
  (* Generate positive points inside the circle. *)
  let* points :=
    classifyCircleData_loop numSamples noise radius 0 (radius * 0.5)%num points in
  (* Generate negative points outside the circle. *)
  let* points :=
    classifyCircleData_loop numSamples noise radius (radius * 0.7)%num radius points in
  ret points.

(** [getXORLabel] of [classifyXORData]. *)
Definition getXORLabel (p : Point) : number :=
  if (Point_x p * Point_y p >=? 0)%num then 1 else -1.

(** [v += v > 0 ? padding : -padding] *)
Definition pad (padding v : number) : number :=
  (v + (if (v >? 0)%num then padding else - padding))%num.

Definition classifyXORData (numSamples : nat) (noise : number)
    : M (list Example2D) :=
  let points : list Example2D := [] in
  for_below numSamples (of_nat numSamples) (fun i points =>
    let* x := randUniform (-5) 5 in
    let padding : number := 0.3 in
    let x := pad padding x in
    let* y := randUniform (-5) 5 in
    let y := pad padding y in
    let* ux := randUniform (-5) 5 in
    let noiseX := (ux * noise)%num in
    let* uy := randUniform (-5) 5 in
    let noiseY := (uy * noise)%num in
    let label :=
      getXORLabel {| Point_x := (x + noiseX)%num; Point_y := (y + noiseY)%num |} in
    ret (push points {| x := x; y := y; label := label |})) points.

End Generators.

(** ** [shuffle] *)

Section Shuffle.
Context {A : Type} (undefined : A) {source : RandomSource}.

(** A number is an array index when it is a non-negative integer. *)
Definition array_index (i : number) : option nat :=
  match i with
  | Fin q =>
      if Qeq_bool q (inject_Z (Qfloor q)) && Qle_bool 0 q
      then Some (Z.to_nat (Qfloor q))
      else None
  | _ => None
  end.

(** [array[i]]: reading outside the array, or at a key that is not an
    index, gives [undefined]. *)
Definition array_get (array : list A) (i : number) : A :=
  match array_index i with
  | Some n => nth n array undefined
  | None => undefined
  end.

(** [array[i] = v]: writing past the end extends the array, the elements
    in between being [undefined]; writing at a key that is not an index
    leaves the elements alone. *)
Definition array_set (array : list A) (i : number) (v : A) : list A :=
  match array_index i with
  | Some n =>
      if (n <? length array)%nat then <[n := v]> array
      else array ++ replicate (n - length array) undefined ++ [v]
  | None => array
  end.

(** The loop [while (counter > 0) { ... counter--; ... }] of [shuffle];
    [counter] goes down by one at every turn. *)
Fixpoint shuffle_loop (counter : nat) (array : list A) : M (list A) :=
  match counter with
  | O => ret array
  | S counter' =>
      (* Pick a random index *)
      let* r := Math_random in
      let index := Math_floor (r * of_nat counter)%num in
      (* Decrease counter by 1 *)
      let counter := counter' in
      (* And swap the last element with it *)
      let temp := array_get array (of_nat counter) in
      let array := array_set array (of_nat counter) (array_get array index) in
      let array := array_set array index temp in
      shuffle_loop counter array
  end.

(** [shuffle(array)]; the result is the array after the call. *)
Definition shuffle (array : list A) : M (list A) :=
  let counter := length array in
  shuffle_loop counter array.

End Shuffle.

(** ** [parseCsvTextToExamples] *)

(** The outcome of a call that may throw. *)
Inductive completion (A : Type) : Type :=
| Normal (a : A)
| Throw (e : string).
Arguments Normal {A} a.
Arguments Throw {A} e.

(** A call together with what it wrote with [console.warn]. *)
Record logged (A : Type) : Type :=
  { outcome : completion A; console : list (string * string) }.
Arguments outcome {A} l.
Arguments console {A} l.

(** [try { body } catch (e) { handler(e) }] *)
Definition try_catch {A : Type} (body : completion A) (handler : string -> logged A)
    : logged A :=
  match body with
  | Normal a => {| outcome := Normal a; console := [] |}
  | Throw e => handler e
  end.

(** *** [parseFloat]

    ECMAScript: leading white space is dropped, and the longest prefix that
    is a decimal literal ([Infinity], digits with an optional fraction and
    exponent, with an optional sign) is its value; [NaN] when no prefix is
    one.  The value of a literal is exact here. *)

Definition is_white (c : ascii) : bool :=
  let n := nat_of_ascii c in
  ((9 <=? n)%nat && (n <=? 13)%nat) || (n =? 32)%nat.

Definition is_digit (c : ascii) : bool :=
  let n := nat_of_ascii c in (48 <=? n)%nat && (n <=? 57)%nat.

Definition digit_value (c : ascii) : Z := Z.of_nat (nat_of_ascii c - 48).

Fixpoint drop_white (s : string) : string :=
  match s with
  | String c s' => if is_white c then drop_white s' else s
  | EmptyString => s
  end.

(** The digits at the head of [s], and what follows them. *)
Fixpoint take_digits (s : string) : list ascii * string :=
  match s with
  | String c s' =>
      if is_digit c then let '(ds, rest) := take_digits s' in (c :: ds, rest)
      else ([], s)
  | EmptyString => ([], s)
  end.

Definition digits_value (ds : list ascii) : Z :=
  fold_left (fun acc c => acc * 10 + digit_value c)%Z ds 0%Z.

(** [e] or [E], an optional sign and digits: the exponent, [0] when the
    text is not an exponent part. *)
Definition exponent_part (s : string) : Z :=
  match s with
  | String c s' =>
      if (nat_of_ascii c =? 101)%nat || (nat_of_ascii c =? 69)%nat then
        match s' with
        | String c' s'' =>
            if (nat_of_ascii c' =? 45)%nat then
              match take_digits s'' with
              | ([], _) => 0%Z
              | (ds, _) => (- digits_value ds)%Z
              end
            else if (nat_of_ascii c' =? 43)%nat then digits_value (fst (take_digits s''))
            else digits_value (fst (take_digits s'))
        | EmptyString => 0%Z
        end
      else 0%Z
  | EmptyString => 0%Z
  end.

(** An unsigned decimal literal at the head of [s]. *)
Definition unsigned_literal (s : string) : number :=
  if String.prefix "Infinity" s then PInf
  else
    let '(int_digits, rest) := take_digits s in
    let '(frac_digits, rest, dot) :=
      match rest with
      | String c rest' =>
          if (nat_of_ascii c =? 46)%nat
          then let '(ds, rest'') := take_digits rest' in (ds, rest'', true)
          else ([], rest, false)
      | EmptyString => ([], rest, false)
      end in
    match int_digits, frac_digits with
    | [], [] => NaN
    | _, _ =>
        let mantissa := digits_value (int_digits ++ frac_digits) in
        let exponent := (exponent_part rest - Z.of_nat (length frac_digits))%Z in
        Fin (Qred (inject_Z mantissa * Qpower 10 exponent))
    end.

Definition parseFloat (s : string) : number :=
  match drop_white s with
  | String c s' =>
      if (nat_of_ascii c =? 45)%nat then num_opp (unsigned_literal s')
      else if (nat_of_ascii c =? 43)%nat then unsigned_literal s'
      else unsigned_literal (String c s')
  | EmptyString => NaN
  end.

(** *** The importer *)

(** A row of [d3.csv.parse]: an object from column names to the text of
    the field; a column the row has no field for is absent. *)
Abbreviation csv_row := (gmap string string).

Section Importer.
(** [d3.csv.parse], of the d3 library, which is not part of the sources. *)
Variable d3_csv_parse : string -> completion (list csv_row).

(** [row.k != null ? parseFloat(String(row.k)) : NaN] *)
Definition field_number (v : option string) : number :=
  match v with
  | Some s => parseFloat s
  | None => NaN
  end.

(** The callback of [rows.forEach]; [out] is the array it pushes to. *)
Definition import_row (isRegression : bool) (out : list Example2D) (row : csv_row)
    : list Example2D :=
  (* Support both "values" and "value" headers. *)
  let vx := field_number (row !! "x") in
  let vy := field_number (row !! "y") in
  let vraw := match row !! "values" with
              | Some v => Some v
              | None => row !! "value"
              end in
  let vv := field_number vraw in
  if isNaN vx || isNaN vy || isNaN vv then out (* skip invalid rows *)
  else
    let label : number :=
      if isRegression then vv else (if (vv <=? 0)%num then -1 else 1) in
    push out {| x := vx; y := vy; label := label |}.

Definition parseCsvTextToExamples (csvText : string) (isRegression : bool)
    : logged (list Example2D) :=
  try_catch
    (match d3_csv_parse csvText with
     | Normal rows =>
         let out : list Example2D := [] in
         Normal (fold_left (import_row isRegression) rows out)
     | Throw e => Throw e
     end)
    (fun e =>
       {| outcome := Normal []; console := [("Failed to parse CSV text"%string, e)] |}).
End Importer.

(** *** A parser of comma-separated text *)

Inductive csv_mode : Type :=
| AtField      (* at the start of a field *)
| InPlain      (* in a field without quotes *)
| InQuoted     (* in a quoted field *)
| AfterQuote   (* after a quote in a quoted field *)
| AfterCR.     (* after a carriage return that ended a line *)

Definition string_of_rev (cs : list ascii) : string :=
  string_of_list_ascii (rev cs).

(** The state of the reader: its mode, the field and the row being read
    (last character and last field first). *)
Definition csv_state : Type := csv_mode * list ascii * list string.

Definition end_field (cell : list ascii) (row : list string) : list string :=
  string_of_rev cell :: row.

(** Reading the character [c]: the next state, and the row that [c]
    completes, if it completes one.  A quote inside a quoted field is
    written twice; what follows the closing quote ends the field. *)
Definition csv_step (st : csv_state) (c : ascii) : csv_state * option (list string) :=
  let '(mode, cell, row) := st in
  let n := nat_of_ascii c in
  let at_field (row : list string) : csv_state * option (list string) :=
    if (n =? 34)%nat then ((InQuoted, [], row), None)
    else if (n =? 44)%nat then ((AtField, [], end_field [] row), None)
    else if (n =? 10)%nat then ((AtField, [], []), Some (rev (end_field [] row)))
    else if (n =? 13)%nat then ((AfterCR, [], []), Some (rev (end_field [] row)))
    else ((InPlain, [c], row), None) in
  match mode with
  | AfterCR => if (n =? 10)%nat then ((AtField, [], []), None) else at_field row
  | AtField => at_field row
  | InPlain =>
      if (n =? 44)%nat then ((AtField, [], end_field cell row), None)
      else if (n =? 10)%nat then ((AtField, [], []), Some (rev (end_field cell row)))
      else if (n =? 13)%nat then ((AfterCR, [], []), Some (rev (end_field cell row)))
      else ((InPlain, c :: cell, row), None)
  | InQuoted =>
      if (n =? 34)%nat then ((AfterQuote, cell, row), None)
      else ((InQuoted, c :: cell, row), None)
  | AfterQuote =>
      if (n =? 34)%nat then ((InQuoted, c :: cell, row), None)
      else if (n =? 10)%nat then ((AtField, [], []), Some (rev (end_field cell row)))
      else if (n =? 13)%nat then ((AfterCR, [], []), Some (rev (end_field cell row)))
      else ((AtField, [], end_field cell row), None)
  end.

(** At the end of the text the row being read is completed; a field that
    has not started is not a field. *)
Definition csv_finish (st : csv_state) : list (list string) :=
  let '(mode, cell, row) := st in
  match mode with
  | AtField | AfterCR => match row with [] => [] | _ => [rev row] end
  | InPlain | InQuoted | AfterQuote => [rev (end_field cell row)]
  end.

Fixpoint csv_rows (cs : list ascii) (st : csv_state) : list (list string) :=
  match cs with
  | [] => csv_finish st
  | c :: cs' =>
      let '(st', done) := csv_step st c in
      match done with
      | Some r => r :: csv_rows cs' st'
      | None => csv_rows cs' st'
      end
  end.

(** The object of a row: the names of the header with the fields of the
    row, a later column taking over an earlier one of the same name. *)
Definition row_object (header fields : list string) : csv_row :=
  fold_left (fun (m : csv_row) '(k, v) => <[k := v]> m) (zip header fields) ∅.

(** Modelled from the spec: [d3.csv.parse], of the d3 library, which is not
    part of the sources.  "Parses delimited text with a header row into
    records keyed by column name", the text being "comma-separated, quoted
    fields permitted". *)
Definition csv_parse (text : string) : completion (list csv_row) :=
  match csv_rows (list_ascii_of_string text) (AtField, [], []) with
  | [] => Normal []
  | header :: rows => Normal (map (row_object header) rows)
  end.

(** The line feed. *)
Definition LF : string := String (ascii_of_nat 10) EmptyString.

(** The text of the end-to-end scenario of the importer. *)
Definition scenario_text : string :=
  ("x,y,values" ++ LF ++ "1,2,0.5" ++ LF ++ "3,4,-0.2" ++ LF ++ "bad,4,1" ++ LF)%string.

(** ** [generatorFromExamples]

    An [Example2D[]] is an array object of references to point objects;
    both live in the heap, so that two arrays can hold the same points. *)

Definition loc : Type := nat.

Inductive object : Type :=
| ArrayObj (elems : list loc)
| PointObj (p : Example2D).

Abbreviation heap := (gmap loc object).

(** A new object, at a location that is not in use. *)
Definition alloc (o : object) (h : heap) : loc * heap :=
  let l := fresh (dom h) in (l, <[l := o]> h).

(** [array.slice()]: a new array with the elements of [array]. *)
Definition array_slice (array : loc) (h : heap) : option (loc * heap) :=
  match h !! array with
  | Some (ArrayObj elems) => Some (alloc (ArrayObj elems) h)
  | _ => None
  end.

(** [type DataGenerator = (numSamples: number, noise: number) => Example2D[]],
    a call running in the heap. *)
Definition DataGenerator : Type := nat -> number -> heap -> option (loc * heap).

(** [return (numSamples, noise) => examples.slice();] *)
Definition generatorFromExamples (examples : loc) : DataGenerator :=
  fun (numSamples : nat) (noise : number) => array_slice examples.

(** What a caller can do with a collection it holds. *)
Inductive array_op : Type :=
| SetIndex (i : nat) (v : loc)   (* array[i] = v, with i < array.length *)
| Push (v : loc)                 (* array.push(v) *)
| Pop.                           (* array.pop() *)

Definition apply_array_op (array : loc) (op : array_op) (h : heap) : option heap :=
  match h !! array with
  | Some (ArrayObj elems) =>
      match op with
      | SetIndex i v =>
          if (i <? length elems)%nat then Some (<[array := ArrayObj (<[i := v]> elems)]> h)
          else None
      | Push v => Some (<[array := ArrayObj (elems ++ [v])]> h)
      | Pop => Some (<[array := ArrayObj (removelast elems)]> h)
      end
  | _ => None
  end.

Fixpoint apply_array_ops (array : loc) (ops : list array_op) (h : heap) : option heap :=
  match ops with
  | [] => Some h
  | op :: ops' =>
      match apply_array_op array op h with
      | Some h' => apply_array_ops array ops' h'
      | None => None
      end
  end.

(** [array[i]] *)
Definition array_read (array : loc) (i : nat) (h : heap) : option loc :=
  match h !! array with
  | Some (ArrayObj elems) => elems !! i
  | _ => None
  end.

Inductive point_field : Type := FieldX | FieldY | FieldLabel.

(** [p.x = v], [p.y = v], [p.label = v] *)
Definition point_write (p : loc) (f : point_field) (v : number) (h : heap) : option heap :=
  match h !! p with
  | Some (PointObj e) =>
      let e' := match f with
                | FieldX => {| x := v; y := y e; label := label e |}
                | FieldY => {| x := x e; y := v; label := label e |}
                | FieldLabel => {| x := x e; y := y e; label := v |}
                end in
      Some (<[p := PointObj e']> h)
  | _ => None
  end.

Definition read_point (h : heap) (p : loc) : option Example2D :=
  match h !! p with
  | Some (PointObj e) => Some e
  | _ => None
  end.

(** The points of a collection, as a reader of the array sees them. *)
Definition read_collection (array : loc) (h : heap) : option (list Example2D) :=
  match h !! array with
  | Some (ArrayObj elems) => mapM (read_point h) elems
  | _ => None
  end.

(** * What the properties are stated with *)

(** ** Generators *)

(** The number of indices [i] with [i < numSamples / 2]. *)
Definition ceil_half (n : nat) : nat := Nat.div2 (S n).

Definition unit_label (p : Example2D) : Prop :=
  label p = Fin 1 \/ label p = Fin (-1).


(** [regressPlane]: [numSamples] points; a label is the tenth of the sum
    of the noisy coordinates. *)
Definition plane_point (nq : Q) (p : Example2D) : Prop :=
  exists vx vy ux uy l : Q,
    x p = Fin vx /\ y p = Fin vy /\ label p = Fin l /\
    (-6 <= vx /\ vx <= 6) /\ (-6 <= vy /\ vy <= 6) /\
    (-6 <= ux /\ ux <= 6) /\ (-6 <= uy /\ uy <= 6) /\
    l == ((vx + ux * nq) + (vy + uy * nq)) / 10.

(** [keepLarger] on finite values. *)
Definition keepLargerQ (l v : Q) : Q :=
  if Qle_bool (Qabs v) (Qabs l) then l else v.

(** The point that one turn of [classifyXORData] pushes when it reads the
    draws [d0 .. d3]: the stored coordinates are the padded ones, the
    label is taken at the padded coordinates plus noise. *)
Definition xor_point (nq d0 d1 d2 d3 : Q) (p : Example2D) : Prop :=
  exists vx vy : Q,
    let ux := 10 * d0 - 5 in
    let uy := 10 * d1 - 5 in
    let noiseX := (10 * d2 - 5) * nq in
    let noiseY := (10 * d3 - 5) * nq in
    x p = Fin vx /\ y p = Fin vy
    /\ (0 < ux -> vx == ux + 0.3) /\ (ux <= 0 -> vx == ux - 0.3)
    /\ (0 < uy -> vy == uy + 0.3) /\ (uy <= 0 -> vy == uy - 0.3)
    /\ ((0 <= (vx + noiseX) * (vy + noiseY) /\ label p = Fin 1)
        \/ ((vx + noiseX) * (vy + noiseY) < 0 /\ label p = Fin (-1))).

Section GeneratorPredicates.
Context {math : MathLib} {source : RandomSource}.

(** [regressGaussian]: [numSamples] points; a label is [getLabel] at the
    noisy coordinates, the stored coordinates are the clean ones. *)
Definition gauss_point (nq : Q) (p : Example2D) : Prop :=
  exists vx vy ux uy : Q,
    x p = Fin vx /\ y p = Fin vy
    /\ label p = getLabel (Fin (vx + ux * nq)) (Fin (vy + uy * nq)).

(** The rejection loop returns from every position of the tape within
    [fuel] tries. *)
Definition accepting (fuel : nat) : Prop :=
  forall st, normalRandom_loop fuel st <> None.

(** One loop of points drawn with [normalRandom] around a centre. *)
Definition normal_turn (fuel : nat) (variance cx cy lbl : number)
    (i : nat) (pts : list Example2D) : M (list Example2D) :=
  let* x := normalRandom fuel cx variance in
  let* y := normalRandom fuel cy variance in
  ret (push pts {| x := x; y := y; label := lbl |}).

End GeneratorPredicates.

(** ** Importer *)

(** The value field of a row: [values], and [value] when [values] is absent. *)
Definition value_field (row : csv_row) : option string :=
  match row !! "values" with
  | Some v => Some v
  | None => row !! "value"
  end.

(** The field is present and coerces to the number [n]. *)
Definition coerced (v : option string) (n : number) : Prop :=
  exists s, v = Some s /\ parseFloat s = n /\ isNaN n = false.

(** The row is included, as the point [p]. *)
Definition included (isRegression : bool) (row : csv_row) (p : Example2D) : Prop :=
  exists vx vy vv,
    coerced (row !! "x") vx /\ coerced (row !! "y") vy /\ coerced (value_field row) vv
    /\ x p = vx /\ y p = vy
    /\ if isRegression then label p = vv
       else ((vv <=? 0)%num = true /\ label p = Fin (-1))
            \/ ((vv >? 0)%num = true /\ label p = Fin 1).

(** The points of the rows that are included, in the order of the rows. *)
Inductive imports (isRegression : bool) : list csv_row -> list Example2D -> Prop :=
| imports_nil : imports isRegression [] []
| imports_keep row rows p ps :
    included isRegression row p -> imports isRegression rows ps ->
    imports isRegression (row :: rows) (p :: ps)
| imports_skip row rows ps :
    (forall p, ~ included isRegression row p) -> imports isRegression rows ps ->
    imports isRegression (row :: rows) ps.

(** ** Heap *)

Definition is_array (h : heap) (a : loc) : Prop :=
  exists elems, h !! a = Some (ArrayObj elems).

(** The heap of the example: the point [(1, 2, 1)] at location [1] and the
    backing collection, holding that point, at location [0]. *)
Definition example_heap : heap :=
  <[0%nat := ArrayObj [1%nat]]>
    (<[1%nat := PointObj {| x := Fin 1; y := Fin 2; label := Fin 1 |}]> ∅).

(** ** The bumps of [regressGaussian] *)

(** The six centres of [regressGaussian] with their signs, as rationals. *)
Definition six_centres : list (Q * Q * Q) :=
  [ (-4, 2.5, 1); (0, 2.5, -1); (4, 2.5, 1);
    (-4, -2.5, -1); (0, -2.5, 1); (4, -2.5, -1) ].

Section BumpPredicates.
Context {math : MathLib}.

(** [b] is the value at [(vx, vy)] of the bump of centre [(cx, cy)] and
    sign [sign]: with [d] the distance to the centre, the square root of
    the sum of the squared differences, [b] is [sign * (1 - d / 2)] up to
    the distance [2] and [0] from there on. *)
Definition bump_of (vx vy : Q) (c : Q * Q * Q) (b : Q) : Prop :=
  let '(cx, cy, sign) := c in
  exists d : Q,
    Math_sqrt (Fin ((vx - cx) * (vx - cx) + (vy - cy) * (vy - cy))) = Fin d
    /\ 0 <= d
    /\ (d <= 2 -> b == sign * (1 - d / 2))
    /\ (2 <= d -> b == 0).

(** The point that one turn of [regressGaussian] pushes when it reads the
    draws [d0 .. d3], each taken through [randUniform(-6, 6)], that is
    times [12] minus [6]: the stored coordinates come from [d0] and [d1],
    the noise from [d2] and [d3] times the noise level, and the label is
    [getLabel] at the stored coordinates plus the noise. *)
Definition gauss_turn (nq d0 d1 d2 d3 : Q) (p : Example2D) : Prop :=
  let vx := d0 * 12 - 6 in
  let vy := d1 * 12 - 6 in
  let noiseX := (d2 * 12 - 6) * nq in
  let noiseY := (d3 * 12 - 6) * nq in
  x p = Fin vx /\ y p = Fin vy
  /\ label p = getLabel (Fin (vx + noiseX)) (Fin (vy + noiseY)).
End BumpPredicates.

(** * Lemmas *)

(** ** A reference runtime

    One implementation of [MathLib], with rational approximations, and a
    way to build tapes, to run the model on concrete inputs. *)

Definition sqrt_approx (q : Q) : Q :=
  Qred (inject_Z (Z.sqrt (Qfloor (q * 1000000000000))) / 1000000).

Definition ref_sqrt (a : number) : number :=
  match a with
  | NaN | NInf => NaN
  | PInf => PInf
  | Fin q => if Qneg q then NaN else Fin (sqrt_approx q)
  end.

(** [ln q = 2 atanh u] with [u = (q - 1) / (q + 1)], cut after three terms. *)
Definition log_approx (q : Q) : Q :=
  let u := (q - 1) / (q + 1) in
  Qred (2 * (u + u * u * u / 3 + u * u * u * u * u / 5)).

Definition ref_log (a : number) : number :=
  match a with
  | NaN | NInf => NaN
  | PInf => PInf
  | Fin q => if Qzero q then NInf else if Qneg q then NaN else Fin (log_approx q)
  end.

Definition ref_sin (a : number) : number :=
  match a with
  | Fin t => Fin (Qred (t - t * t * t / 6 + t * t * t * t * t / 120))
  | _ => NaN
  end.

Definition ref_cos (a : number) : number :=
  match a with
  | Fin t => Fin (Qred (1 - t * t / 2 + t * t * t * t / 24))
  | _ => NaN
  end.

Lemma Qneg_true (q : Q) : Qneg q = true -> q < 0.
Proof.
  unfold Qneg. intros E. apply negb_true_iff in E.
  apply Qnot_le_lt. intros L. apply Qle_bool_iff in L. congruence.
Qed.

Lemma Qzero_true (q : Q) : Qzero q = true <-> q == 0.
Proof. unfold Qzero. apply Qeq_bool_iff. Qed.

Lemma sqrt_approx_nonneg (q : Q) : 0 <= sqrt_approx q.
Proof.
  unfold sqrt_approx. rewrite Qred_correct.
  apply Qle_shift_div_l; [reflexivity |].
  rewrite Qmult_0_l. change 0 with (inject_Z 0). rewrite <- Zle_Qle.
  apply Z.sqrt_nonneg.
Qed.

Lemma ref_sqrt_finite (q : Q) :
  0 <= q -> exists r, ref_sqrt (Fin q) = Fin r /\ 0 <= r.
Proof.
  intros Hq. exists (sqrt_approx q). split; [| apply sqrt_approx_nonneg].
  unfold ref_sqrt. destruct (Qneg q) eqn:E; [| reflexivity].
  apply Qneg_true in E. lra.
Qed.

Lemma ref_log_zero (q : Q) : q == 0 -> ref_log (Fin q) = NInf.
Proof.
  intros Hq. unfold ref_log. apply Qzero_true in Hq. now rewrite Hq.
Qed.

#[export] Instance ref_math : MathLib := {|
  Math_sqrt := ref_sqrt;
  Math_log := ref_log;
  Math_sin := ref_sin;
  Math_cos := ref_cos;
  Math_PI := 3.141592653589793;
  Math_sqrt_finite := ref_sqrt_finite;
  Math_sqrt_PInf := eq_refl;
  Math_log_zero := ref_log_zero
|}.

(** A draw outside [[0, 1)] is replaced by [0], so that every function is a
    tape. *)
Definition in_unit (q : Q) : bool := Qle_bool 0 q && negb (Qle_bool 1 q).
Definition clip (q : Q) : Q := if in_unit q then q else 0.

Lemma clip_range (q : Q) : 0 <= clip q /\ clip q < 1.
Proof.
  unfold clip, in_unit. destruct (Qle_bool 0 q) eqn:E0; simpl.
  - destruct (Qle_bool 1 q) eqn:E1; simpl; [lra |].
    apply Qle_bool_iff in E0. split; [assumption |].
    apply Qnot_le_lt. intros L. apply Qle_bool_iff in L. congruence.
  - lra.
Qed.

Definition tape_of (f : nat -> Q) : RandomSource :=
  {| draw := fun i => clip (f i); draw_range := fun i => clip_range (f i) |}.

(** On the tape of constant draw [0.75] the rejection loop accepts its
    first pair at every position: [v1 = v2 = 0.5] and [s = 0.5]. *)
Definition steady_tape : RandomSource := tape_of (fun _ => 0.75).

(** ** More of what the properties are stated with *)

(** The squared sum [s] that [normalRandom] computes from two draws. *)
Definition pair_v (d : Q) : Q := 2 * d + - (1).
Definition pair_s (d1 d2 : Q) : Q := pair_v d1 * pair_v d1 + pair_v d2 * pair_v d2.

(** A tape whose first pair of draws [normalRandom] rejects ([s = 1.9208])
    and whose later pairs it accepts ([s = 0.5]). *)
Definition late_tape : RandomSource :=
  tape_of (fun i => if (i <? 2)%nat then 0.99 else 0.75).

(** A tape that alternates between a high and a low draw. *)
Definition zigzag_tape : RandomSource :=
  tape_of (fun i => if Nat.even i then 0.95 else 0.05).

(** The stored coordinates of a point. *)
Definition coords (p : Example2D) : number * number := (x p, y p).

(** No field of the point is [NaN]. *)
Definition no_NaN (p : Example2D) : Prop :=
  isNaN (x p) = false /\ isNaN (y p) = false /\ isNaN (label p) = false.

(** [vv <= 0 ? -1 : 1], the label of a classification row. *)
Definition threshold (vv : number) : number :=
  if (vv <=? 0)%num then -1 else 1.

Definition relabel (p : Example2D) : Example2D :=
  {| x := x p; y := y p; label := threshold (label p) |}.

(** Two rows with the same [x], [y], [values] and [value]. *)
Definition same_fields (row row' : csv_row) : Prop :=
  row !! "x" = row' !! "x" /\ row !! "y" = row' !! "y"
  /\ row !! "values" = row' !! "values" /\ row !! "value" = row' !! "value".

(** Writes to fields of points, one after the other. *)
Fixpoint apply_point_writes (ws : list (loc * point_field * number)) (h : heap)
    : option heap :=
  match ws with
  | [] => Some h
  | (p, f, v) :: ws' =>
      match point_write p f v h with
      | Some h' => apply_point_writes ws' h'
      | None => None
      end
  end.

Section ExtraPredicates.
Context {math : MathLib}.

(** The label of [regressCsvDummy2] at the coordinates [(x, y)]: the
    [forEach] over its two centres. *)
Definition hills_label (x y : number) : number :=
  fold_left (fun (best : number) '(cx, cy, s) =>
    let v := (s * d3_scale_linear 0 4 1 0 true
                    (dist {| Point_x := x; Point_y := y |}
                          {| Point_x := cx; Point_y := cy |}))%num in
    if (Math_abs v >? Math_abs best)%num then v else best)
    [ (Fin (-2.5), Fin 2.0, Fin 1); (Fin 2.5, Fin (-2.0), Fin (-1)) ] (Fin 0).
End ExtraPredicates.

(** The points of two classes, [k] of label [1] followed by [k] of label
    [-1]. *)
Definition two_classes (k : nat) (ps : list Example2D) : Prop :=
  exists ps1 ps2,
    ps = ps1 ++ ps2 /\ length ps1 = k /\ length ps2 = k
    /\ Forall (fun p => label p = Fin 1) ps1
    /\ Forall (fun p => label p = Fin (-1)) ps2.

(** A coordinate of [classifyXORData]: within [5.3] of zero and more than
    [0.3] away from it (exactly [0.3] away on the negative side). *)
Definition padded (v : Q) : Prop :=
  (0.3 < v /\ v < 5.3) \/ (-5.3 <= v /\ v <= -0.3).

(** A point of [classifyXORData] for the noise [nq]. *)
Definition xor_stored (nq : Q) (p : Example2D) : Prop :=
  exists vx vy : Q,
    x p = Fin vx /\ y p = Fin vy /\ padded vx /\ padded vy
    /\ (nq == 0 ->
        (label p = Fin 1 <-> 0 < vx * vy) /\ (label p = Fin (-1) <-> vx * vy < 0)).


Section MorePoints.
Context {math : MathLib}.

(** A point of [regressCsvDummy2] for the noise [nq]: the noise moves the
    stored coordinates, and the label is the one of the stored
    coordinates. *)
Definition dummy2_point (nq : Q) (p : Example2D) : Prop :=
  exists vx vy l : Q,
    x p = Fin vx /\ y p = Fin vy
    /\ (- 6 - nq <= vx /\ vx <= 6 + nq) /\ (- 6 - nq <= vy /\ vy <= 6 + nq)
    /\ label p = hills_label (x p) (y p)
    /\ label p = Fin l /\ -1 <= l /\ l <= 1.
End MorePoints.

(** The rows that the parser of comma-separated text reads. *)
Definition parsed_rows (text : string) : list csv_row :=
  match csv_parse text with
  | Normal rows => rows
  | Throw _ => []
  end.

(** The scenario text with a fourth column. *)
Definition wide_text : string :=
  ("x,y,values,note" ++ LF ++ "1,2,0.5,a" ++ LF ++ "3,4,-0.2,b" ++ LF
   ++ "bad,4,1,c" ++ LF)%string.

(** The scenario text in two parts, each with the header. *)
Definition first_text : string := ("x,y,values" ++ LF ++ "1,2,0.5" ++ LF)%string.
Definition second_text : string :=
  ("x,y,values" ++ LF ++ "3,4,-0.2" ++ LF ++ "bad,4,1" ++ LF)%string.

(** The magnitude up to which the bounds of [randUniform] are taken:
    [2 ^ 1000], so that the difference of two bounds is below the largest
    finite number of the source (just under [2 ^ 1024]). *)
Definition range_limit : Q := inject_Z (2 ^ 1000).

(** ** Comparisons of finite numbers *)

Lemma num_le_Fin (p q : Q) : (Fin p <=? Fin q)%num = true <-> p <= q.
Proof. simpl. apply Qle_bool_iff. Qed.

Lemma num_lt_Fin (p q : Q) : (Fin p <? Fin q)%num = true <-> p < q.
Proof.
  simpl. rewrite negb_true_iff. split.
  - intros E. apply Qnot_le_lt. intros L. apply Qle_bool_iff in L. congruence.
  - intros L. destruct (Qle_bool q p) eqn:E; [| reflexivity].
    apply Qle_bool_iff in E. lra.
Qed.

Lemma num_lt_Fin_false (p q : Q) : (Fin p <? Fin q)%num = false <-> q <= p.
Proof.
  rewrite <- not_true_iff_false, num_lt_Fin. split; [apply Qnot_lt_le | lra].
Qed.

Lemma num_le_Fin_false (p q : Q) : (Fin p <=? Fin q)%num = false <-> q < p.
Proof.
  rewrite <- not_true_iff_false, num_le_Fin. split; [apply Qnot_le_lt | lra].
Qed.

Lemma inject_nat_lt (i n : nat) :
  inject_Z (Z.of_nat i) < inject_Z (Z.of_nat n) <-> (i < n)%nat.
Proof. rewrite <- Zlt_Qlt. lia. Qed.

(** [i < numSamples] on loop indices. *)
Lemma of_nat_lt (i n : nat) :
  (of_nat i <? of_nat n)%num = bool_decide (i < n)%nat.
Proof.
  unfold of_nat, of_Z. case_bool_decide as H.
  - apply num_lt_Fin. now apply inject_nat_lt.
  - apply num_lt_Fin_false. apply Qnot_lt_le. now rewrite inject_nat_lt.
Qed.

(** [i < numSamples / 2] holds for the first [ceil (numSamples / 2)]
    indices. *)
Lemma of_nat_lt_half (i n : nat) :
  (of_nat i <? of_nat n / 2)%num = bool_decide (i < Nat.div2 (S n))%nat.
Proof.
  unfold of_nat, of_Z. cbn [num_div]. change (Qzero 2) with false. cbv iota.
  assert (Hd : (i < Nat.div2 (S n))%nat <-> (2 * i < n)%nat).
  { pose proof (Nat.div2_odd (S n)) as E.
    destruct (Nat.odd (S n)); simpl Nat.b2n in E; lia. }
  assert (Hq : inject_Z (Z.of_nat i) < inject_Z (Z.of_nat n) / 2 <-> (2 * i < n)%nat).
  { rewrite <- inject_nat_lt. rewrite Nat2Z.inj_mul, inject_Z_mult.
    change (inject_Z (Z.of_nat 2)) with 2. unfold Qdiv. change (/ 2) with (1 # 2).
    split; intros L; lra. }
  case_bool_decide as H.
  - apply num_lt_Fin. apply Hq, Hd, H.
  - apply num_lt_Fin_false. apply Qnot_lt_le. rewrite Hq, <- Hd. exact H.
Qed.

(** ** Loops that push one point per turn *)

Section PushLoops.
Context {A : Type}.

(** A loop of [k] turns, each of which appends one element and reads [c]
    draws: the loop appends [k] elements.  [Q i st p] relates the element
    [p] pushed at turn [i] to the position [st] of the tape at the start
    of the turn. *)
Lemma for_loop_push (Q : nat -> nat -> A -> Prop) (c k : nat)
    (cond : nat -> bool) (body : nat -> list A -> M (list A)) :
  (forall i, cond i = bool_decide (i < k)%nat) ->
  (forall i pts st, (i < k)%nat ->
     exists p, body i pts st = Some (pts ++ [p], (st + c)%nat) /\ Q i st p) ->
  forall fuel i pts st, (i <= k)%nat -> (k - i < fuel)%nat ->
    exists ps,
      for_loop fuel cond body i pts st = Some (pts ++ ps, (st + c * (k - i))%nat)
      /\ length ps = (k - i)%nat
      /\ forall j p, ps !! j = Some p -> Q (i + j)%nat (st + c * j)%nat p.
Proof.
  intros Hcond Hbody fuel. induction fuel as [| fuel IH]; intros i pts st Hi Hf.
  - lia.
  - simpl. rewrite Hcond. case_bool_decide as Hlt.
    + destruct (Hbody i pts st Hlt) as (p & Hb & Hq).
      unfold bind at 1. rewrite Hb.
      destruct (IH (S i) (pts ++ [p]) (st + c)%nat) as (ps & Hl & Hlen & Hall);
        [lia | lia |].
      exists (p :: ps). rewrite Hl. split; [| split].
      * rewrite <- app_assoc. simpl. do 2 f_equal. nia.
      * simpl. lia.
      * intros [| j] q Hj; simpl in Hj.
        -- injection Hj as <-. now rewrite Nat.add_0_r, Nat.mul_0_r, Nat.add_0_r.
        -- specialize (Hall j q Hj).
           replace (i + S j)%nat with (S i + j)%nat by lia.
           replace (st + c * S j)%nat with (st + c + c * j)%nat by nia.
           exact Hall.
    + exists []. assert (k - i = 0)%nat as -> by lia.
      unfold ret. rewrite app_nil_r, Nat.mul_0_r, Nat.add_0_r.
      split; [reflexivity | split; [reflexivity |]].
      intros j p Hj. destruct j; discriminate.
Qed.

(** The same for a turn that may not return: when the loop returns, it
    has appended [k] elements. *)
Lemma for_loop_push_partial (Q : A -> Prop) (k : nat)
    (cond : nat -> bool) (body : nat -> list A -> M (list A)) :
  (forall i, cond i = bool_decide (i < k)%nat) ->
  (forall i pts st r, (i < k)%nat -> body i pts st = Some r ->
     exists p st', r = (pts ++ [p], st') /\ Q p) ->
  forall fuel i pts st r, (i <= k)%nat ->
    for_loop fuel cond body i pts st = Some r ->
    exists ps st', r = (pts ++ ps, st') /\ length ps = (k - i)%nat /\ Forall Q ps.
Proof.
  intros Hcond Hbody fuel. induction fuel as [| fuel IH]; intros i pts st r Hi Hr.
  - discriminate.
  - simpl in Hr. rewrite Hcond in Hr. case_bool_decide as Hlt.
    + unfold bind at 1 in Hr. destruct (body i pts st) as [[pts1 st1] |] eqn:Hb;
        [| discriminate].
      destruct (Hbody i pts st _ Hlt Hb) as (p & st' & E & Hq).
      injection E as -> ->.
      destruct (IH (S i) _ _ _ ltac:(lia) Hr) as (ps & st2 & -> & Hlen & Hall).
      exists (p :: ps), st2. rewrite <- app_assoc. simpl.
      split; [reflexivity | split; [lia | now constructor]].
    + injection Hr as <-. exists [], st. rewrite app_nil_r.
      split; [reflexivity | split; [simpl; lia | constructor]].
Qed.

(** A turn that returns, after any number of draws. *)
Lemma for_loop_push_returns (Q : A -> Prop) (k : nat)
    (cond : nat -> bool) (body : nat -> list A -> M (list A)) :
  (forall i, cond i = bool_decide (i < k)%nat) ->
  (forall i pts st, (i < k)%nat ->
     exists p st', body i pts st = Some (pts ++ [p], st') /\ Q p) ->
  forall fuel i pts st, (i <= k)%nat -> (k - i < fuel)%nat ->
    exists ps st',
      for_loop fuel cond body i pts st = Some (pts ++ ps, st')
      /\ length ps = (k - i)%nat /\ Forall Q ps.
Proof.
  intros Hcond Hbody fuel. induction fuel as [| fuel IH]; intros i pts st Hi Hf.
  - lia.
  - simpl. rewrite Hcond. case_bool_decide as Hlt.
    + destruct (Hbody i pts st Hlt) as (p & st1 & Hb & Hq).
      unfold bind at 1. rewrite Hb.
      destruct (IH (S i) (pts ++ [p]) st1) as (ps & st2 & Hl & Hlen & Hall);
        [lia | lia |].
      exists (p :: ps), st2. rewrite Hl, <- app_assoc. simpl.
      split; [reflexivity | split; [lia | now constructor]].
    + exists [], st. unfold ret. rewrite app_nil_r.
      split; [reflexivity | split; [simpl; lia | constructor]].
Qed.
End PushLoops.

(** ** Running the computations *)

Lemma Qsquare_nonneg (a : Q) : 0 <= a * a.
Proof. nra. Qed.

Lemma num_div_Fin (p q : Q) : ~ q == 0 -> (Fin p / Fin q)%num = Fin (p / q).
Proof.
  intros Hq. simpl. destruct (Qzero q) eqn:E; [| reflexivity].
  apply Qzero_true in E. contradiction.
Qed.

Section Running.
Context {math : MathLib} {source : RandomSource}.

Lemma bind_ret {A B} (a : A) (k : A -> M B) (st : nat) :
  bind (ret a) k st = k a st.
Proof. reflexivity. Qed.

Lemma bind_Math_random {B} (k : number -> M B) (st : nat) :
  bind Math_random k st = k (Fin (draw st)) (S st).
Proof. reflexivity. Qed.

Lemma bind_randUniform {B} (a b : number) (k : number -> M B) (st : nat) :
  bind (randUniform a b) k st
  = k (Fin (draw st) * (b - a) + a)%num (S st).
Proof. reflexivity. Qed.

Lemma bind_bind {A B C} (m : M A) (f : A -> M B) (g : B -> M C) (st : nat) :
  bind (bind m f) g st = bind m (fun a => bind (f a) g) st.
Proof. unfold bind. destruct (m st) as [[a st'] |]; reflexivity. Qed.
End Running.

Ltac run_turn :=
  repeat first
    [ rewrite bind_randUniform
    | rewrite bind_Math_random
    | rewrite bind_ret
    | rewrite bind_bind ].

(** ** The number of points of each total generator *)

Section Lengths.
Context {math : MathLib} {source : RandomSource}.

(** A loop of the generators whose turn always returns, pushing one point
    and reading [c] draws. *)
Lemma for_below_push (Q : nat -> nat -> Example2D -> Prop) (c k limit : nat)
    (bound : number) (body : nat -> list Example2D -> M (list Example2D)) :
  (forall i, (of_nat i <? bound)%num = bool_decide (i < k)%nat) ->
  (k <= limit)%nat ->
  (forall i pts st, (i < k)%nat ->
     exists p, body i pts st = Some (pts ++ [p], (st + c)%nat) /\ Q i st p) ->
  forall pts st,
    exists ps,
      for_below limit bound body pts st = Some (pts ++ ps, (st + c * k)%nat)
      /\ length ps = k
      /\ forall j p, ps !! j = Some p -> Q j (st + c * j)%nat p.
Proof.
  intros Hcond Hk Hbody pts st. unfold for_below.
  destruct (for_loop_push Q c k _ body Hcond Hbody (S limit) 0%nat pts st)
    as (ps & E & Hlen & Hall); [lia | lia |].
  exists ps. rewrite E, Nat.sub_0_r in *. split; [reflexivity | split; [exact Hlen |]].
  exact Hall.
Qed.

Lemma for_below_push_partial (Q : Example2D -> Prop) (k limit : nat)
    (bound : number) (body : nat -> list Example2D -> M (list Example2D)) :
  (forall i, (of_nat i <? bound)%num = bool_decide (i < k)%nat) ->
  (forall i pts st r, (i < k)%nat -> body i pts st = Some r ->
     exists p st', r = (pts ++ [p], st') /\ Q p) ->
  forall pts st r,
    for_below limit bound body pts st = Some r ->
    exists ps st', r = (pts ++ ps, st') /\ length ps = k /\ Forall Q ps.
Proof.
  intros Hcond Hbody pts st r Hr. unfold for_below in Hr.
  destruct (for_loop_push_partial Q k _ body Hcond Hbody _ _ _ _ _ (Nat.le_0_l k) Hr)
    as (ps & st' & E & Hlen & Hall).
  exists ps, st'. rewrite Nat.sub_0_r in Hlen. auto.
Qed.
End Lengths.

Lemma ceil_half_double (n : nat) :
  (2 * ceil_half n = if Nat.odd n then S n else n)%nat.
Proof.
  unfold ceil_half. pose proof (Nat.div2_odd (S n)) as E.
  rewrite Nat.odd_succ in E. rewrite <- Nat.negb_odd in E.
  destruct (Nat.odd n); simpl negb in E; simpl Nat.b2n in E; lia.
Qed.

Lemma ceil_half_le (n : nat) : (ceil_half n <= n)%nat.
Proof. pose proof (ceil_half_double n). destruct (Nat.odd n) eqn:E; [| lia].
  destruct n; [discriminate | lia]. Qed.

Section Shapes.
Context {math : MathLib} {source : RandomSource}.

Lemma plane_scale (v : Q) :
  exists l, d3_scale_linear (-10) 10 (-1) 1 false (Fin v) = Fin l /\ l == v / 10.
Proof.
  unfold d3_scale_linear. cbn [num_sub num_opp num_add].
  rewrite num_div_Fin by (intros E; vm_compute in E; discriminate).
  cbn [num_mul num_sub num_add num_opp].
  eexists. split; [reflexivity |]. field.
Qed.

Lemma regressPlane_shape (numSamples : nat) (nq : Q) (st : nat) :
  exists ps,
    regressPlane numSamples (Fin nq) st = Some (ps, (st + 4 * numSamples)%nat)
    /\ length ps = numSamples
    /\ Forall (plane_point nq) ps.
Proof.
  unfold regressPlane.
  edestruct (for_below_push (fun _ _ p => plane_point nq p) 4 numSamples numSamples)
    as (ps & E & Hlen & Hall);
    [ intros i; apply of_nat_lt | reflexivity | | ].
  2: { exists ps. rewrite E. split; [reflexivity | split; [exact Hlen |]].
       apply Forall_lookup. intros j p Hj. exact (Hall j p Hj). }
  intros i pts st0 Hi. cbv beta. run_turn.
  cbn [num_sub num_opp num_add num_mul].
  eexists. split.
  - unfold push. replace (st0 + 4)%nat with (S (S (S (S st0)))) by lia. reflexivity.
  - match goal with
    | |- context [d3_scale_linear _ _ _ _ _ (Fin ?v)] =>
        destruct (plane_scale v) as (l & El & Hl)
    end.
    rewrite El.
    pose proof (draw_range st0) as [? ?].
    pose proof (draw_range (S st0)) as [? ?].
    pose proof (draw_range (S (S st0))) as [? ?].
    pose proof (draw_range (S (S (S st0)))) as [? ?].
    eexists _, _, (draw (S (S st0)) * (6 - - (6)) + - (6)),
      (draw (S (S (S st0))) * (6 - - (6)) + - (6)), l.
    cbn [x y label].
    repeat split; try reflexivity; try lra.
    rewrite Hl. unfold Qminus. reflexivity.
Qed.

(** *** The bumps of [regressGaussian] *)

(** Clamping to [[0, 1]], as [.clamp(true)] does. *)
Lemma clamp_unit (t : Q) :
  exists c, Math_max 0 (Math_min 1 (Fin t)) = Fin c
    /\ (0 <= c /\ c <= 1)
    /\ (t <= 0 -> c == 0) /\ (0 <= t -> t <= 1 -> c == t) /\ (1 <= t -> c == 1).
Proof.
  unfold Math_min. cbn match.
  destruct (Fin t <? 1)%num eqn:E1.
  - apply num_lt_Fin in E1. unfold Math_max. cbn match.
    destruct (0 <? Fin t)%num eqn:E0.
    + apply num_lt_Fin in E0. exists t. repeat split; intros; lra.
    + apply num_lt_Fin_false in E0. exists 0. repeat split; intros; lra.
  - apply num_lt_Fin_false in E1. unfold Math_max. cbn match.
    change (Fin 0 <? Fin 1)%num with true. cbv iota.
    exists 1. repeat split; intros; lra.
Qed.

(** The scale of the bumps takes a distance [d] to [1 - d / 2], and to
    [0] from [d = 2] on. *)
Lemma bumpScale_Fin (d : Q) :
  0 <= d ->
  exists s, bumpScale (Fin d) = Fin s
    /\ (0 <= s /\ s <= 1)
    /\ (d <= 2 -> s == 1 - d / 2) /\ (2 <= d -> s == 0).
Proof.
  intros Hd. unfold bumpScale, d3_scale_linear.
  cbn [num_sub num_opp num_add].
  rewrite num_div_Fin by (intros E; vm_compute in E; discriminate).
  destruct (clamp_unit ((d + - 0) / (2 + - 0))) as (c & -> & Hc & Hlo & Hmid & Hhi).
  cbn [num_mul num_sub num_add num_opp].
  assert (Ht : (d + - 0) / (2 + - 0) == d / 2) by field.
  rewrite Ht in Hlo, Hmid, Hhi.
  assert (Hd2 : d / 2 == d * (1 # 2)) by field.
  rewrite Hd2 in *.
  eexists. split; [reflexivity |]. split; [lra |]. split; intros L.
  - rewrite Hmid by lra. rewrite Hd2. ring.
  - rewrite Hhi by lra. ring.
Qed.

Lemma dist_Fin (ax ay bx by' : Q) :
  exists d, dist {| Point_x := Fin ax; Point_y := Fin ay |}
                 {| Point_x := Fin bx; Point_y := Fin by' |} = Fin d /\ 0 <= d.
Proof.
  unfold dist. cbn [Point_x Point_y num_sub num_opp num_add num_mul].
  apply Math_sqrt_finite.
  pose proof (Qsquare_nonneg (ax + - bx)). pose proof (Qsquare_nonneg (ay + - by')).
  lra.
Qed.


Lemma keepLarger_Fin (l v : Q) : keepLarger (Fin l) (Fin v) = Fin (keepLargerQ l v).
Proof.
  unfold keepLarger, keepLargerQ, num_gt. cbn [Math_abs num_lt].
  destruct (Qle_bool (Qabs v) (Qabs l)); reflexivity.
Qed.

Lemma fold_keepLarger_Fin (vs : list Q) (a : Q) :
  fold_left keepLarger (map Fin vs) (Fin a) = Fin (fold_left keepLargerQ vs a).
Proof.
  revert a. induction vs as [| v vs IH]; intros a; simpl; [reflexivity |].
  rewrite keepLarger_Fin. apply IH.
Qed.

(** What the [forEach] of [getLabel] keeps: the first value of largest
    absolute value, unless no value is larger than the initial one. *)
Lemma fold_keepLargerQ (vs : list Q) (a : Q) :
  let r := fold_left keepLargerQ vs a in
  Qabs a <= Qabs r
  /\ (forall j v, vs !! j = Some v -> Qabs v <= Qabs r)
  /\ ((r = a /\ forall j v, vs !! j = Some v -> Qabs v <= Qabs a)
      \/ (exists i, vs !! i = Some r /\ Qabs a < Qabs r
            /\ forall j v, (j < i)%nat -> vs !! j = Some v -> Qabs v < Qabs r)).
Proof.
  revert a. induction vs as [| v vs IH]; intros a; cbn zeta.
  - simpl. split; [lra |]. split; [intros j v Hj; destruct j; discriminate |].
    left. split; [reflexivity |]. intros j v Hj; destruct j; discriminate.
  - simpl fold_left. specialize (IH (keepLargerQ a v)). cbn zeta in IH.
    set (r := fold_left keepLargerQ vs (keepLargerQ a v)) in *.
    destruct IH as (Hr & Hall & Hcase).
    assert (Ek : keepLargerQ a v = if Qle_bool (Qabs v) (Qabs a) then a else v)
      by reflexivity.
    clearbody r. rewrite Ek in Hr, Hcase. clear Ek.
    destruct (Qle_bool (Qabs v) (Qabs a)) eqn:E.
    + apply Qle_bool_iff in E. split; [exact Hr |]. split.
      * intros [| j] w Hj; simpl in Hj; [injection Hj as <-; lra | eauto].
      * destruct Hcase as [[Er Hle] | (i & Hi & Hlt & Hbefore)].
        -- left. split; [exact Er |].
           intros [| j] w Hj; simpl in Hj; [injection Hj as <-; lra | eauto].
        -- right. exists (S i). split; [exact Hi |]. split; [exact Hlt |].
           intros [| j] w Hj Hw; simpl in Hw; [injection Hw as <-; lra |].
           apply (Hbefore j); [lia | exact Hw].
    + apply not_true_iff_false in E. rewrite Qle_bool_iff in E.
      apply Qnot_le_lt in E. split; [lra |]. split.
      * intros [| j] w Hj; simpl in Hj; [injection Hj as <-; lra | eauto].
      * right. destruct Hcase as [[Er Hle] | (i & Hi & Hlt & Hbefore)].
        -- exists 0%nat. rewrite Er. split; [reflexivity |]. split; [exact E |].
           intros j w Hj. lia.
        -- exists (S i). split; [exact Hi |]. split; [lra |].
           intros [| j] w Hj Hw; simpl in Hw; [injection Hw as <-; lra |].
           apply (Hbefore j); [lia | exact Hw].
Qed.

Lemma getLabel_fold (vx vy : number) :
  getLabel vx vy = fold_left keepLarger (map (bump vx vy) gaussians) (Fin 0).
Proof.
  unfold getLabel. generalize (Fin 0). generalize gaussians.
  induction l as [| g l IH]; intros a; simpl; [reflexivity | apply IH].
Qed.


Lemma regressGaussian_shape (numSamples : nat) (nq : Q) (st : nat) :
  exists ps,
    regressGaussian numSamples (Fin nq) st = Some (ps, (st + 4 * numSamples)%nat)
    /\ length ps = numSamples
    /\ Forall (gauss_point nq) ps.
Proof.
  unfold regressGaussian.
  edestruct (for_below_push (fun _ _ p => gauss_point nq p) 4 numSamples numSamples)
    as (ps & E & Hlen & Hall);
    [ intros i; apply of_nat_lt | reflexivity | | ].
  2: { exists ps. rewrite E. split; [reflexivity | split; [exact Hlen |]].
       apply Forall_lookup. intros j p Hj. exact (Hall j p Hj). }
  intros i pts st0 Hi. cbv beta. run_turn.
  cbn [num_sub num_opp num_add num_mul].
  eexists. split.
  - unfold push. replace (st0 + 4)%nat with (S (S (S (S st0)))) by lia. reflexivity.
  - eexists _, _, _, _. cbn [x y label]. repeat split; reflexivity.
Qed.
(** *** [classifyXORData] *)

(** [getXORLabel] at a finite point: [+1] exactly when the product of the
    coordinates is at least zero. *)
Lemma getXORLabel_Fin (a b : Q) :
  (0 <= a * b /\ getXORLabel {| Point_x := Fin a; Point_y := Fin b |} = Fin 1)
  \/ (a * b < 0 /\ getXORLabel {| Point_x := Fin a; Point_y := Fin b |} = Fin (-1)).
Proof.
  unfold getXORLabel, num_ge. cbn [Point_x Point_y num_mul].
  destruct (Fin 0 <=? Fin (a * b))%num eqn:E.
  - left. apply num_le_Fin in E. auto.
  - right. apply num_le_Fin_false in E. auto.
Qed.

(** [pad] pushes a finite coordinate away from zero by the padding;
    a coordinate that is not above zero is pushed down. *)
Lemma pad_Fin (padding v : Q) :
  exists w, pad (Fin padding) (Fin v) = Fin w
    /\ (0 < v -> w == v + padding) /\ (v <= 0 -> w == v - padding).
Proof.
  unfold pad, num_gt. destruct (Fin 0 <? Fin v)%num eqn:E.
  - apply num_lt_Fin in E. eexists. split; [reflexivity |].
    split; intros; [reflexivity | lra].
  - apply num_lt_Fin_false in E. eexists. split; [reflexivity |].
    split; intros; [lra | simpl; unfold Qminus; reflexivity].
Qed.

Lemma classifyXORData_shape (numSamples : nat) (nq : Q) (st : nat) :
  exists ps,
    classifyXORData numSamples (Fin nq) st = Some (ps, (st + 4 * numSamples)%nat)
    /\ length ps = numSamples
    /\ forall j p, ps !! j = Some p ->
         xor_point nq (draw (st + 4 * j)) (draw (st + 4 * j + 1))
                   (draw (st + 4 * j + 2)) (draw (st + 4 * j + 3)) p.
Proof.
  unfold classifyXORData.
  edestruct (for_below_push
               (fun _ s p => xor_point nq (draw s) (draw (s + 1)) (draw (s + 2))
                                       (draw (s + 3)) p) 4 numSamples numSamples)
    as (ps & E & Hlen & Hall);
    [ intros i; apply of_nat_lt | reflexivity | | ].
  2: { exists ps. rewrite E. split; [reflexivity | split; [exact Hlen |]].
       intros j p Hj. exact (Hall j p Hj). }
  intros i pts st0 Hi. cbv beta. run_turn.
  cbn [num_sub num_opp num_add num_mul].
  replace (st0 + 1)%nat with (S st0) by lia.
  replace (st0 + 2)%nat with (S (S st0)) by lia.
  replace (st0 + 3)%nat with (S (S (S st0))) by lia.
  replace (st0 + 4)%nat with (S (S (S (S st0)))) by lia.
  match goal with
  | |- context [pad (Fin ?a) (Fin (draw st0 * ?m + ?c))] =>
      destruct (pad_Fin a (draw st0 * m + c)) as (vx & Ex & Hx1 & Hx2)
  end.
  match goal with
  | |- context [pad (Fin ?a) (Fin (draw (S st0) * ?m + ?c))] =>
      destruct (pad_Fin a (draw (S st0) * m + c)) as (vy & Ey & Hy1 & Hy2)
  end.
  rewrite Ex, Ey. cbn [num_add num_mul].
  eexists. split; [reflexivity |].
  exists vx, vy. cbn zeta. cbn [x y label].
  split; [reflexivity |]. split; [reflexivity |].
  split; [intros L; rewrite Hx1 by lra; ring |].
  split; [intros L; rewrite Hx2 by lra; ring |].
  split; [intros L; rewrite Hy1 by lra; ring |].
  split; [intros L; rewrite Hy2 by lra; ring |].
  match goal with
  | |- context [getXORLabel {| Point_x := Fin ?a; Point_y := Fin ?b |}] =>
      destruct (getXORLabel_Fin a b) as [[L ->] | [L ->]]
  end.
  - left. split; [| reflexivity].
    eapply Qle_trans; [exact L | apply Qle_lteq; right; ring].
  - right. split; [| reflexivity].
    eapply Qle_lt_trans; [| exact L]. apply Qle_lteq; right; ring.
Qed.
(** *** The generators that draw a label per class *)

Lemma genSpiral_shape (numSamples : nat) (noise n deltaT lbl : number)
    (pts0 : list Example2D) (st0 : nat) :
  n = (of_nat numSamples / 2)%num ->
  exists ps,
    genSpiral numSamples noise n deltaT lbl pts0 st0
    = Some (pts0 ++ ps, (st0 + 2 * ceil_half numSamples)%nat)
    /\ length ps = ceil_half numSamples
    /\ Forall (fun p => label p = lbl) ps.
Proof.
  intros ->. unfold genSpiral.
  edestruct (for_below_push (fun _ _ p => label p = lbl) 2
               (ceil_half numSamples) numSamples)
    as (ps & E & Hlen & Hall);
    [ intros i; apply of_nat_lt_half | apply ceil_half_le | | ].
  2: { exists ps. rewrite E. split; [reflexivity | split; [exact Hlen |]].
       apply Forall_lookup. intros j p Hj. exact (Hall j p Hj). }
  intros i pts st1 Hi. cbv beta zeta. run_turn.
  eexists. split;
    [ unfold push; replace (st1 + 2)%nat with (S (S st1)) by lia; reflexivity
    | reflexivity ].
Qed.

Lemma classifySpiralData_shape (numSamples : nat) (noise : number) (st : nat) :
  exists ps1 ps2,
    classifySpiralData numSamples noise st
    = Some (ps1 ++ ps2, (st + 4 * ceil_half numSamples)%nat)
    /\ length ps1 = ceil_half numSamples /\ length ps2 = ceil_half numSamples
    /\ Forall (fun p => label p = Fin 1) ps1
    /\ Forall (fun p => label p = Fin (-1)) ps2.
Proof.
  unfold classifySpiralData. cbv zeta.
  destruct (genSpiral_shape numSamples noise _ 0 1 [] st eq_refl)
    as (ps1 & E1 & L1 & F1).
  unfold bind at 1. rewrite E1.
  destruct (genSpiral_shape numSamples noise _ Math_PI (-1) ([] ++ ps1)
              (st + 2 * ceil_half numSamples)%nat eq_refl)
    as (ps2 & E2 & L2 & F2).
  unfold bind at 1. rewrite E2.
  exists ps1, ps2. unfold ret. simpl app.
  split; [do 2 f_equal; lia | auto].
Qed.

Lemma getCircleLabel_unit (radius : number) (p c : Point) :
  getCircleLabel radius p c = Fin 1 \/ getCircleLabel radius p c = Fin (-1).
Proof. unfold getCircleLabel. destruct (_ <? _)%num; auto. Qed.

Lemma classifyCircleData_loop_shape (numSamples : nat) (noise radius lo hi : number)
    (pts0 : list Example2D) (st0 : nat) :
  exists ps,
    classifyCircleData_loop numSamples noise radius lo hi pts0 st0
    = Some (pts0 ++ ps, (st0 + 4 * ceil_half numSamples)%nat)
    /\ length ps = ceil_half numSamples
    /\ Forall unit_label ps.
Proof.
  unfold classifyCircleData_loop.
  edestruct (for_below_push (fun _ _ p => unit_label p) 4
               (ceil_half numSamples) numSamples)
    as (ps & E & Hlen & Hall);
    [ intros i; apply of_nat_lt_half | apply ceil_half_le | | ].
  2: { exists ps. rewrite E. split; [reflexivity | split; [exact Hlen |]].
       apply Forall_lookup. intros j p Hj. exact (Hall j p Hj). }
  intros i pts st1 Hi. cbv beta zeta. run_turn.
  eexists. split;
    [ unfold push; replace (st1 + 4)%nat with (S (S (S (S st1)))) by lia; reflexivity
    | apply getCircleLabel_unit ].
Qed.

Lemma classifyCircleData_shape (numSamples : nat) (noise : number) (st : nat) :
  exists ps,
    classifyCircleData numSamples noise st
    = Some (ps, (st + 8 * ceil_half numSamples)%nat)
    /\ length ps = (2 * ceil_half numSamples)%nat
    /\ Forall unit_label ps.
Proof.
  unfold classifyCircleData. cbv zeta.
  destruct (classifyCircleData_loop_shape numSamples noise 5 0 (5 * 0.5)%num [] st)
    as (ps1 & E1 & L1 & F1).
  unfold bind at 1. rewrite E1.
  destruct (classifyCircleData_loop_shape numSamples noise 5 (5 * 0.7)%num 5
              ([] ++ ps1) (st + 4 * ceil_half numSamples)%nat)
    as (ps2 & E2 & L2 & F2).
  unfold bind at 1. rewrite E2.
  exists (ps1 ++ ps2). unfold ret. simpl app.
  split; [do 2 f_equal; lia |].
  split; [rewrite length_app; lia | now apply Forall_app].
Qed.

(** *** The presets that always return *)

Lemma classifyCsvDummy2_shape (numSamples : nat) (noise : number) (st : nat) :
  exists ps,
    classifyCsvDummy2 numSamples noise st = Some (ps, (st + 5 * 160)%nat)
    /\ length ps = 160%nat
    /\ Forall unit_label ps.
Proof.
  unfold classifyCsvDummy2.
  edestruct (for_below_push (fun _ _ p => unit_label p) 5 160 160)
    as (ps & E & Hlen & Hall);
    [ intros i; apply of_nat_lt | reflexivity | | ].
  2: { exists ps. rewrite E. split; [reflexivity | split; [exact Hlen |]].
       apply Forall_lookup. intros j p Hj. exact (Hall j p Hj). }
  intros i pts st1 Hi. cbv beta zeta. rewrite bind_Math_random.
  replace (st1 + 5)%nat with (S (S (S (S (S st1))))) by lia.
  destruct (Fin (draw st1) <? 0.5)%num; run_turn;
    (eexists; split; [unfold push; reflexivity |]);
    unfold unit_label; cbn [label]; destruct (_ <? _)%num; auto.
Qed.

Lemma regressCsvDummy1_shape (numSamples : nat) (noise : number) (st : nat) :
  exists ps,
    regressCsvDummy1 numSamples noise st = Some (ps, (st + 4 * 200)%nat)
    /\ length ps = 200%nat.
Proof.
  unfold regressCsvDummy1.
  edestruct (for_below_push (fun _ _ _ => True) 4 200 200)
    as (ps & E & Hlen & Hall);
    [ intros i; apply of_nat_lt | reflexivity | | ].
  2: { exists ps. rewrite E. split; [reflexivity | exact Hlen]. }
  intros i pts st1 Hi. cbv beta zeta. run_turn.
  replace (st1 + 4)%nat with (S (S (S (S st1)))) by lia.
  eexists. split; [unfold push; reflexivity | exact I].
Qed.

Lemma regressCsvDummy2_shape (numSamples : nat) (noise : number) (st : nat) :
  exists ps,
    regressCsvDummy2 numSamples noise st = Some (ps, (st + 4 * 200)%nat)
    /\ length ps = 200%nat.
Proof.
  unfold regressCsvDummy2.
  edestruct (for_below_push (fun _ _ _ => True) 4 200 200)
    as (ps & E & Hlen & Hall);
    [ intros i; apply of_nat_lt | reflexivity | | ].
  2: { exists ps. rewrite E. split; [reflexivity | exact Hlen]. }
  intros i pts st1 Hi. cbv beta zeta. run_turn.
  replace (st1 + 4)%nat with (S (S (S (S st1)))) by lia.
  eexists. split; [unfold push; reflexivity | exact I].
Qed.

(** *** The generators that call [normalRandom] *)

Lemma normalRandom_returns (fuel : nat) (mean variance : number) (st : nat) :
  accepting fuel -> exists v st', normalRandom fuel mean variance st = Some (v, st').
Proof.
  intros Hacc. unfold normalRandom, bind.
  destruct (normalRandom_loop fuel st) as [[[v1 s] st'] |] eqn:E.
  - eexists _, _. reflexivity.
  - now apply Hacc in E.
Qed.

Lemma normal_turn_partial (fuel : nat) (variance cx cy lbl : number)
    (i : nat) (pts : list Example2D) (st : nat) (r : list Example2D * nat) :
  normal_turn fuel variance cx cy lbl i pts st = Some r ->
  exists p st', r = (pts ++ [p], st') /\ label p = lbl.
Proof.
  unfold normal_turn, bind, ret, push.
  destruct (normalRandom fuel cx variance st) as [[vx st1] |]; [| discriminate].
  destruct (normalRandom fuel cy variance st1) as [[vy st2] |]; [| discriminate].
  intros [= <-]. eexists _, _. split; reflexivity.
Qed.

Lemma normal_turn_returns (fuel : nat) (variance cx cy lbl : number)
    (i : nat) (pts : list Example2D) (st : nat) :
  accepting fuel ->
  exists p st', normal_turn fuel variance cx cy lbl i pts st = Some (pts ++ [p], st')
                /\ label p = lbl.
Proof.
  intros Hacc. unfold normal_turn, bind, ret, push.
  destruct (normalRandom_returns fuel cx variance st Hacc) as (vx & st1 & ->).
  destruct (normalRandom_returns fuel cy variance st1 Hacc) as (vy & st2 & ->).
  eexists _, _. split; reflexivity.
Qed.

Lemma genGauss_partial (fuel numSamples : nat) (variance cx cy lbl : number)
    (pts : list Example2D) (st : nat) (r : list Example2D * nat) :
  genGauss fuel numSamples variance cx cy lbl pts st = Some r ->
  exists ps st', r = (pts ++ ps, st') /\ length ps = ceil_half numSamples
                 /\ Forall (fun p => label p = lbl) ps.
Proof.
  unfold genGauss. apply for_below_push_partial.
  - intros i. apply of_nat_lt_half.
  - intros i pts0 st0 r0 _.
    exact (normal_turn_partial fuel variance cx cy lbl i pts0 st0 r0).
Qed.

Lemma genGauss_returns (fuel numSamples : nat) (variance cx cy lbl : number)
    (pts : list Example2D) (st : nat) :
  accepting fuel ->
  exists ps st', genGauss fuel numSamples variance cx cy lbl pts st = Some (pts ++ ps, st')
                 /\ length ps = ceil_half numSamples
                 /\ Forall (fun p => label p = lbl) ps.
Proof.
  intros Hacc. unfold genGauss, for_below.
  destruct (for_loop_push_returns (fun p => label p = lbl) (ceil_half numSamples)
              (fun i => (of_nat i <? of_nat numSamples / 2)%num)
              (normal_turn fuel variance cx cy lbl)
              (fun i => of_nat_lt_half i numSamples)
              (fun i pts0 st0 _ => normal_turn_returns fuel variance cx cy lbl i pts0 st0 Hacc)
              (S numSamples) 0%nat pts st)
    as (ps & st' & E & Hlen & Hall);
    [lia | pose proof (ceil_half_le numSamples); lia |].
  exists ps, st'. rewrite Nat.sub_0_r in Hlen. auto.
Qed.

Lemma classifyCsvDummy1_add_partial (fuel : nat) (noise cx cy lbl : number) (n : nat)
    (pts : list Example2D) (st : nat) (r : list Example2D * nat) :
  classifyCsvDummy1_add fuel noise cx cy lbl n pts st = Some r ->
  exists ps st', r = (pts ++ ps, st') /\ length ps = n
                 /\ Forall (fun p => label p = lbl) ps.
Proof.
  unfold classifyCsvDummy1_add. apply for_below_push_partial.
  - intros i. apply of_nat_lt.
  - intros i pts0 st0 r0 _.
    exact (normal_turn_partial fuel (0.4 + noise)%num cx cy lbl i pts0 st0 r0).
Qed.

Lemma classifyCsvDummy1_add_returns (fuel : nat) (noise cx cy lbl : number) (n : nat)
    (pts : list Example2D) (st : nat) :
  accepting fuel ->
  exists ps st', classifyCsvDummy1_add fuel noise cx cy lbl n pts st = Some (pts ++ ps, st')
                 /\ length ps = n
                 /\ Forall (fun p => label p = lbl) ps.
Proof.
  intros Hacc. unfold classifyCsvDummy1_add, for_below.
  destruct (for_loop_push_returns (fun p => label p = lbl) n
              (fun i => (of_nat i <? of_nat n)%num)
              (normal_turn fuel (0.4 + noise)%num cx cy lbl)
              (fun i => of_nat_lt i n)
              (fun i pts0 st0 _ =>
                 normal_turn_returns fuel (0.4 + noise)%num cx cy lbl i pts0 st0 Hacc)
              (S n) 0%nat pts st)
    as (ps & st' & E & Hlen & Hall); [lia | lia |].
  exists ps, st'. rewrite Nat.sub_0_r in Hlen. auto.
Qed.
End Shapes.

(** ** The generators: number of points and labels *)

Section GeneratorResults.
Context {math : MathLib} {source : RandomSource}.

Lemma classifyTwoGaussData_partial (fuel numSamples : nat) (noise : number)
    (st : nat) (ps : list Example2D) (st' : nat) :
  classifyTwoGaussData fuel numSamples noise st = Some (ps, st') ->
  length ps = (2 * ceil_half numSamples)%nat /\ Forall unit_label ps.
Proof.
  unfold classifyTwoGaussData. cbv zeta. unfold bind at 1.
  destruct (genGauss fuel numSamples _ 2 2 1 [] st) as [[ps1 st1] |] eqn:E1;
    [| discriminate].
  apply genGauss_partial in E1 as (qs1 & st1' & [= -> ->] & L1 & F1).
  unfold bind at 1.
  destruct (genGauss fuel numSamples _ (-2) (-2) (-1) _ st1') as [[ps2 st2] |] eqn:E2;
    [| discriminate].
  apply genGauss_partial in E2 as (qs2 & st2' & [= -> ->] & L2 & F2).
  intros [= <- <-]. simpl app. split; [rewrite length_app; lia |].
  apply Forall_app. split; eapply Forall_impl; eauto; unfold unit_label; auto.
Qed.

Lemma classifyTwoGaussData_returns (fuel numSamples : nat) (noise : number) (st : nat) :
  accepting fuel ->
  exists ps st', classifyTwoGaussData fuel numSamples noise st = Some (ps, st').
Proof.
  intros Hacc. unfold classifyTwoGaussData. cbv zeta. unfold bind at 1.
  destruct (genGauss_returns fuel numSamples
              (d3_scale_linear 0 0.5 0.5 4 false noise) 2 2 1 [] st Hacc)
    as (ps1 & st1 & -> & _).
  unfold bind at 1.
  destruct (genGauss_returns fuel numSamples
              (d3_scale_linear 0 0.5 0.5 4 false noise) (-2) (-2) (-1) ([] ++ ps1) st1 Hacc)
    as (ps2 & st2 & -> & _).
  eexists _, _. reflexivity.
Qed.

Lemma classifyCsvDummy1_partial (fuel numSamples : nat) (noise : number)
    (st : nat) (ps : list Example2D) (st' : nat) :
  classifyCsvDummy1 fuel numSamples noise st = Some (ps, st') ->
  length ps = 160%nat /\ Forall unit_label ps.
Proof.
  unfold classifyCsvDummy1. cbv zeta. unfold bind at 1.
  destruct (classifyCsvDummy1_add fuel noise 2.5 2.5 1 80 [] st)
    as [[ps1 st1] |] eqn:E1; [| discriminate].
  apply classifyCsvDummy1_add_partial in E1 as (qs1 & st1' & [= -> ->] & L1 & F1).
  unfold bind at 1.
  destruct (classifyCsvDummy1_add fuel noise (-2.5) (-2.5) (-1) 80 _ st1')
    as [[ps2 st2] |] eqn:E2; [| discriminate].
  apply classifyCsvDummy1_add_partial in E2 as (qs2 & st2' & [= -> ->] & L2 & F2).
  intros [= <- <-]. simpl app. split; [rewrite length_app; lia |].
  apply Forall_app. split; eapply Forall_impl; eauto; unfold unit_label; auto.
Qed.

Lemma classifyCsvDummy1_returns (fuel numSamples : nat) (noise : number) (st : nat) :
  accepting fuel ->
  exists ps st', classifyCsvDummy1 fuel numSamples noise st = Some (ps, st').
Proof.
  intros Hacc. unfold classifyCsvDummy1. cbv zeta. unfold bind at 1.
  destruct (classifyCsvDummy1_add_returns fuel noise 2.5 2.5 1 80 [] st Hacc)
    as (ps1 & st1 & -> & _).
  unfold bind at 1.
  destruct (classifyCsvDummy1_add_returns fuel noise (-2.5) (-2.5) (-1) 80
              ([] ++ ps1) st1 Hacc)
    as (ps2 & st2 & -> & _).
  eexists _, _. reflexivity.
Qed.

(** The rejection loop accepts at once on [steady_tape]. *)
Lemma steady_tape_accepting : accepting (source := steady_tape) 1.
Proof. intros st. cbn. discriminate. Qed.

(** With enough fuel for the rejection loop, the generators that draw with
    [normalRandom] return, [ceil (numSamples / 2)] points per class for
    [classifyTwoGaussData] and 80 per cluster for [classifyCsvDummy1]. *)
Lemma normalRandom_generators_return (fuel numSamples : nat) (noise : number) (st : nat) :
  accepting fuel ->
  (exists ps st', classifyTwoGaussData fuel numSamples noise st = Some (ps, st')
     /\ length ps = (2 * ceil_half numSamples)%nat /\ Forall unit_label ps)
  /\ (exists ps st', classifyCsvDummy1 fuel numSamples noise st = Some (ps, st')
        /\ length ps = 160%nat /\ Forall unit_label ps).
Proof.
  intros Hacc. split.
  - destruct (classifyTwoGaussData_returns fuel numSamples noise st Hacc) as (ps & st' & E).
    exists ps, st'. split; [exact E |]. now apply classifyTwoGaussData_partial in E.
  - destruct (classifyCsvDummy1_returns fuel numSamples noise st Hacc) as (ps & st' & E).
    exists ps, st'. split; [exact E |]. now apply classifyCsvDummy1_partial in E.
Qed.

(** The generators that split the samples in two classes run
    [ceil (numSamples / 2)] turns per class. *)
Lemma two_class_lengths (fuel numSamples : nat) (noise : number) (st : nat) :
  (forall ps st', classifyTwoGaussData fuel numSamples noise st = Some (ps, st') ->
     length ps = (2 * ceil_half numSamples)%nat)
  /\ (exists ps st', classifySpiralData numSamples noise st = Some (ps, st')
        /\ length ps = (2 * ceil_half numSamples)%nat)
  /\ (exists ps st', classifyCircleData numSamples noise st = Some (ps, st')
        /\ length ps = (2 * ceil_half numSamples)%nat).
Proof.
  split; [| split].
  - intros ps st' E. now apply classifyTwoGaussData_partial in E.
  - destruct (classifySpiralData_shape numSamples noise st)
      as (ps1 & ps2 & E & L1 & L2 & _).
    eexists _, _. split; [exact E |]. rewrite length_app. lia.
  - destruct (classifyCircleData_shape numSamples noise st) as (ps & E & L & _).
    eauto.
Qed.

(** The generators with one loop return [numSamples] points, and the
    presets their constant number of points. *)
Lemma one_loop_lengths (fuel numSamples : nat) (nq : Q) (st : nat) :
  (exists ps st', regressPlane numSamples (Fin nq) st = Some (ps, st')
     /\ length ps = numSamples)
  /\ (exists ps st', regressGaussian numSamples (Fin nq) st = Some (ps, st')
        /\ length ps = numSamples)
  /\ (exists ps st', classifyXORData numSamples (Fin nq) st = Some (ps, st')
        /\ length ps = numSamples)
  /\ (forall ps st', classifyCsvDummy1 fuel numSamples (Fin nq) st = Some (ps, st') ->
        length ps = 160%nat)
  /\ (exists ps st', classifyCsvDummy2 numSamples (Fin nq) st = Some (ps, st')
        /\ length ps = 160%nat)
  /\ (exists ps st', regressCsvDummy1 numSamples (Fin nq) st = Some (ps, st')
        /\ length ps = 200%nat)
  /\ (exists ps st', regressCsvDummy2 numSamples (Fin nq) st = Some (ps, st')
        /\ length ps = 200%nat).
Proof.
  repeat split.
  - destruct (regressPlane_shape numSamples nq st) as (ps & E & L & _); eauto.
  - destruct (regressGaussian_shape numSamples nq st) as (ps & E & L & _); eauto.
  - destruct (classifyXORData_shape numSamples nq st) as (ps & E & L & _); eauto.
  - intros ps st' E. now apply classifyCsvDummy1_partial in E.
  - destruct (classifyCsvDummy2_shape numSamples (Fin nq) st) as (ps & E & L & _); eauto.
  - destruct (regressCsvDummy1_shape numSamples (Fin nq) st) as (ps & E & L); eauto.
  - destruct (regressCsvDummy2_shape numSamples (Fin nq) st) as (ps & E & L); eauto.
Qed.
End GeneratorResults.

Section XorLabels.
Context {source : RandomSource}.

(** The labels of [classifyXORData] for any noise, a number or not. *)
Lemma classifyXORData_labels (numSamples : nat) (noise : number) (st : nat) :
  exists ps,
    classifyXORData numSamples noise st = Some (ps, (st + 4 * numSamples)%nat)
    /\ Forall unit_label ps.
Proof.
  unfold classifyXORData.
  edestruct (for_below_push (fun _ _ p => unit_label p) 4 numSamples numSamples)
    as (ps & E & Hlen & Hall);
    [ intros i; apply of_nat_lt | reflexivity | | ].
  2: { exists ps. rewrite E. split; [reflexivity |].
       apply Forall_lookup. intros j p Hj. exact (Hall j p Hj). }
  intros i pts st0 Hi. cbv beta zeta. run_turn.
  eexists. split;
    [ unfold push; replace (st0 + 4)%nat with (S (S (S (S st0)))) by lia; reflexivity |].
  unfold unit_label, getXORLabel. cbn [label]. destruct (_ >=? _)%num; auto.
Qed.
End XorLabels.

(** ** The label of [regressGaussian], bump by bump *)

Section Bumps.
Context {math : MathLib} {source : RandomSource}.

Lemma bump_is (vx vy cx cy sign : Q) :
  exists b, bump (Fin vx) (Fin vy) (Fin cx, Fin cy, Fin sign) = Fin b
            /\ bump_of vx vy (cx, cy, sign) b.
Proof.
  unfold bump, dist. cbn [Point_x Point_y num_sub num_opp num_add num_mul].
  destruct (Math_sqrt_finite ((vx - cx) * (vx - cx) + (vy - cy) * (vy - cy)))
    as (d & Ed & Hd).
  { pose proof (Qsquare_nonneg (vx - cx)). pose proof (Qsquare_nonneg (vy - cy)). lra. }
  change (Math_sqrt (Fin ((vx + - cx) * (vx + - cx) + (vy + - cy) * (vy + - cy))))
    with (Math_sqrt (Fin ((vx - cx) * (vx - cx) + (vy - cy) * (vy - cy)))).
  rewrite Ed.
  destruct (bumpScale_Fin d Hd) as (s & -> & _ & Hnear & Hfar).
  cbn [num_mul]. eexists. split; [reflexivity |].
  exists d. split; [exact Ed |]. split; [exact Hd |]. split; intros L.
  - now rewrite (Hnear L).
  - rewrite (Hfar L). ring.
Qed.

(** The values of the six bumps at a finite place, in the order of the
    centres. *)
Lemma map_bump_is (vx vy : Q) :
  exists bs : list Q,
    map (bump (Fin vx) (Fin vy)) gaussians = map Fin bs
    /\ Forall2 (bump_of vx vy) six_centres bs.
Proof.
  unfold gaussians, six_centres. cbn [map].
  destruct (bump_is vx vy (-4) 2.5 1) as (b1 & -> & H1).
  destruct (bump_is vx vy 0 2.5 (-1)) as (b2 & -> & H2).
  destruct (bump_is vx vy 4 2.5 1) as (b3 & -> & H3).
  destruct (bump_is vx vy (-4) (-2.5) (-1)) as (b4 & -> & H4).
  destruct (bump_is vx vy 0 (-2.5) 1) as (b5 & -> & H5).
  destruct (bump_is vx vy 4 (-2.5) (-1)) as (b6 & -> & H6).
  exists [b1; b2; b3; b4; b5; b6]. split; [reflexivity |].
  repeat (constructor; [assumption |]). constructor.
Qed.

(** [getLabel] at a finite place: the first bump of largest absolute
    value, among the values of the six bumps. *)
Lemma getLabel_first_largest (vx vy : Q) :
  exists bs : list Q,
    map (bump (Fin vx) (Fin vy)) gaussians = map Fin bs
    /\ Forall2 (bump_of vx vy) six_centres bs
    /\ exists (i : nat) (b : Q),
         bs !! i = Some b
         /\ num_same (getLabel (Fin vx) (Fin vy)) (Fin b)
         /\ (forall j b', bs !! j = Some b' -> Qabs b' <= Qabs b)
         /\ (forall j b', (j < i)%nat -> bs !! j = Some b' -> Qabs b' < Qabs b).
Proof.
  destruct (map_bump_is vx vy) as (bs & Ebs & Hbs).
  exists bs. split; [exact Ebs |]. split; [exact Hbs |].
  rewrite getLabel_fold, Ebs, fold_keepLarger_Fin.
  destruct (fold_keepLargerQ bs 0) as (_ & Hall & [[Er Hle] | (i & Hi & Hlt & Hbefore)]).
  - destruct bs as [| b0 bs']; [inversion Hbs |].
    exists 0%nat, b0. rewrite Er. split; [reflexivity |].
    assert (H0 : Qabs b0 <= Qabs 0) by (apply (Hle 0%nat); reflexivity).
    change (Qabs 0) with 0 in *.
    assert (Hb0 : b0 == 0).
    { pose proof (Qabs_nonneg b0). apply Qabs_Qle_condition in H0. lra. }
    split; [simpl; now rewrite Hb0 |]. split.
    + intros j b' Hj. apply Hle in Hj. pose proof (Qabs_nonneg b0). lra.
    + intros j b' Hj. lia.
  - exists i, (fold_left keepLargerQ bs 0).
    split; [exact Hi |]. split; [simpl; reflexivity |]. split; eauto.
Qed.

(** Each point of [regressGaussian], with the draws of its turn. *)
Lemma regressGaussian_turns (numSamples : nat) (nq : Q) (st : nat) :
  exists ps,
    regressGaussian numSamples (Fin nq) st = Some (ps, (st + 4 * numSamples)%nat)
    /\ length ps = numSamples
    /\ forall j p, ps !! j = Some p ->
         gauss_turn nq (draw (st + 4 * j)) (draw (st + 4 * j + 1))
                    (draw (st + 4 * j + 2)) (draw (st + 4 * j + 3)) p.
Proof.
  unfold regressGaussian.
  apply (for_below_push
           (fun _ s p => gauss_turn nq (draw s) (draw (s + 1)) (draw (s + 2))
                                    (draw (s + 3)) p) 4 numSamples numSamples);
    [ intros i; apply of_nat_lt | reflexivity | ].
  intros i pts st0 Hi. cbv beta. run_turn.
  cbn [num_sub num_opp num_add num_mul].
  replace (st0 + 1)%nat with (S st0) by lia.
  replace (st0 + 2)%nat with (S (S st0)) by lia.
  replace (st0 + 3)%nat with (S (S (S st0))) by lia.
  replace (st0 + 4)%nat with (S (S (S (S st0)))) by lia.
  eexists. split; [unfold push; reflexivity |].
  unfold gauss_turn. cbn [x y label]. repeat split; reflexivity.
Qed.
End Bumps.

(** ** [shuffle] permutes the array *)

Section ShuffleResults.
Context {A : Type} (undefined : A) {source : RandomSource}.

Lemma array_index_of_nat (n : nat) : array_index (of_nat n) = Some n.
Proof.
  unfold array_index, of_nat, of_Z. rewrite Qfloor_Z.
  assert (E1 : Qeq_bool (inject_Z (Z.of_nat n)) (inject_Z (Z.of_nat n)) = true)
    by (apply Qeq_bool_iff; reflexivity).
  assert (E2 : Qle_bool 0 (inject_Z (Z.of_nat n)) = true).
  { apply Qle_bool_iff. change 0 with (inject_Z 0). rewrite <- Zle_Qle. lia. }
  rewrite E1, E2. simpl. now rewrite Nat2Z.id.
Qed.

(** [Math.floor(Math.random() * counter)] is an index below [counter]. *)
Lemma random_index (d : Q) (counter : nat) :
  0 <= d -> d < 1 -> (0 < counter)%nat ->
  exists k, Math_floor (Fin d * of_nat counter)%num = of_nat k /\ (k < counter)%nat.
Proof.
  intros H0 H1 Hc. unfold of_nat, of_Z. cbn [num_mul Math_floor].
  set (c := inject_Z (Z.of_nat counter)).
  assert (Hcpos : 0 < c).
  { unfold c. change 0 with (inject_Z 0). rewrite <- Zlt_Qlt. lia. }
  assert (Hlo : (0 <= Qfloor (d * c))%Z).
  { change 0%Z with (Qfloor 0). apply Qfloor_resp_le. nra. }
  assert (Hhi : (Qfloor (d * c) < Z.of_nat counter)%Z).
  { rewrite Zlt_Qlt. fold c. pose proof (Qfloor_le (d * c)). nra. }
  exists (Z.to_nat (Qfloor (d * c))). split; [| lia].
  now rewrite Z2Nat.id.
Qed.

Lemma array_get_of_nat (array : list A) (n : nat) (a : A) :
  array !! n = Some a -> array_get undefined array (of_nat n) = a.
Proof.
  intros H. unfold array_get. rewrite array_index_of_nat.
  now apply nth_lookup_Some.
Qed.

Lemma array_set_of_nat (array : list A) (n : nat) (v : A) :
  (n < length array)%nat -> array_set undefined array (of_nat n) v = <[n := v]> array.
Proof.
  intros H. unfold array_set. rewrite array_index_of_nat.
  apply Nat.ltb_lt in H. now rewrite H.
Qed.

(** One swap of [shuffle] within the array. *)
Lemma swap_permutes (array : list A) (i j : nat) :
  (i < length array)%nat -> (j < length array)%nat ->
  let temp := array_get undefined array (of_nat i) in
  let array1 := array_set undefined array (of_nat i) (array_get undefined array (of_nat j)) in
  let array2 := array_set undefined array1 (of_nat j) temp in
  array2 ≡ₚ array /\ length array2 = length array.
Proof.
  intros Hi Hj. cbv zeta.
  destruct (lookup_lt_is_Some_2 array i Hi) as [a Ha].
  destruct (lookup_lt_is_Some_2 array j Hj) as [b Hb].
  rewrite (array_get_of_nat _ _ _ Ha), (array_get_of_nat _ _ _ Hb).
  rewrite (array_set_of_nat array) by exact Hi.
  rewrite array_set_of_nat by (rewrite length_insert; exact Hj).
  split; [now apply Permutation_insert_swap | now rewrite !length_insert].
Qed.

Lemma shuffle_loop_permutes (counter : nat) (array : list A) (st : nat) :
  (counter <= length array)%nat ->
  exists array',
    shuffle_loop undefined counter array st = Some (array', (st + counter)%nat)
    /\ array' ≡ₚ array /\ length array' = length array.
Proof.
  revert array st. induction counter as [| counter IH]; intros array st Hc.
  - exists array. rewrite Nat.add_0_r. split; [reflexivity | split; reflexivity].
  - cbn [shuffle_loop]. rewrite bind_Math_random. cbv zeta.
    destruct (draw_range st) as [H0 H1].
    destruct (random_index (draw st) (S counter) H0 H1 ltac:(lia)) as (k & -> & Hk).
    destruct (swap_permutes array counter k ltac:(lia) ltac:(lia)) as [Hperm Hlen].
    cbv zeta in Hperm, Hlen.
    destruct (IH _ (S st) ltac:(rewrite Hlen; lia)) as (array' & E & Hp & Hl).
    exists array'. rewrite E. split; [f_equal; f_equal; lia |].
    split; [now rewrite Hp | now rewrite Hl].
Qed.

End ShuffleResults.

(** ** The importer keeps the rows whose fields are numbers *)

Lemma field_number_coerced (v : option string) :
  isNaN (field_number v) = false -> coerced v (field_number v).
Proof.
  destruct v as [s |]; simpl; [| discriminate].
  intros H. exists s. auto.
Qed.

Lemma coerced_field_number (v : option string) (n : number) :
  coerced v n -> field_number v = n /\ isNaN n = false.
Proof. intros (s & -> & <- & H). auto. Qed.

Lemma num_le_false_gt (a : number) :
  isNaN a = false -> (a <=? 0)%num = false -> (a >? 0)%num = true.
Proof.
  destruct a as [| | | q]; intros Hn H; try discriminate; try reflexivity.
  unfold num_gt. apply num_lt_Fin. now apply num_le_Fin_false in H.
Qed.

Lemma import_row_cases (isRegression : bool) (out : list Example2D) (row : csv_row) :
  (exists p, import_row isRegression out row = out ++ [p] /\ included isRegression row p)
  \/ (import_row isRegression out row = out /\ forall p, ~ included isRegression row p).
Proof.
  unfold import_row. fold (value_field row). cbv zeta.
  destruct (isNaN (field_number (row !! "x"))) eqn:Ex; simpl orb.
  { right. split; [reflexivity |]. intros p (vx & vy & vv & Hx & _).
    apply coerced_field_number in Hx as [E H]. congruence. }
  destruct (isNaN (field_number (row !! "y"))) eqn:Ey; simpl orb.
  { right. split; [reflexivity |]. intros p (vx & vy & vv & _ & Hy & _).
    apply coerced_field_number in Hy as [E H]. congruence. }
  destruct (isNaN (field_number (value_field row))) eqn:Ev.
  { right. split; [reflexivity |]. intros p (vx & vy & vv & _ & _ & Hv & _).
    apply coerced_field_number in Hv as [E H]. congruence. }
  left. eexists. split; [reflexivity |].
  exists (field_number (row !! "x")), (field_number (row !! "y")),
    (field_number (value_field row)).
  repeat (split; [now apply field_number_coerced |]).
  cbn [x y label]. split; [reflexivity |]. split; [reflexivity |].
  destruct isRegression; [reflexivity |].
  destruct (field_number (value_field row) <=? 0)%num eqn:El.
  - left. auto.
  - right. split; [now apply num_le_false_gt | reflexivity].
Qed.

Lemma fold_import_row (isRegression : bool) (rows : list csv_row) (out : list Example2D) :
  exists ps, fold_left (import_row isRegression) rows out = out ++ ps
             /\ imports isRegression rows ps.
Proof.
  revert out. induction rows as [| row rows IH]; intros out.
  - exists []. simpl. rewrite app_nil_r. split; [reflexivity | constructor].
  - simpl fold_left.
    destruct (import_row_cases isRegression out row) as [(p & -> & Hp) | [-> Hno]].
    + destruct (IH (out ++ [p])) as (ps & -> & Hps).
      exists (p :: ps). rewrite <- app_assoc. split; [reflexivity | now constructor].
    + destruct (IH out) as (ps & -> & Hps).
      exists ps. split; [reflexivity | now constructor].
Qed.

(** A row gives at most one point. *)
Lemma included_unique (isRegression : bool) (row : csv_row) (p q : Example2D) :
  included isRegression row p -> included isRegression row q -> p = q.
Proof.
  intros (vx & vy & vv & Hx & Hy & Hv & Epx & Epy & Hl)
         (wx & wy & wv & Hx' & Hy' & Hv' & Eqx & Eqy & Hl').
  apply coerced_field_number in Hx as [Ex _], Hy as [Ey _], Hv as [Ev Nv].
  apply coerced_field_number in Hx' as [Ex' _], Hy' as [Ey' _], Hv' as [Ev' _].
  assert (vx = wx) by congruence. assert (vy = wy) by congruence.
  assert (vv = wv) by congruence. subst wx wy wv.
  destruct p as [px py pl], q as [qx qy ql]. cbn [x y label] in *. subst.
  f_equal. destruct isRegression; [congruence |].
  assert (Hexcl : (field_number (value_field row) <=? 0)%num = true ->
                  (field_number (value_field row) >? 0)%num = true -> False).
  { destruct (field_number (value_field row)) as [| | | v]; intros A B;
      try discriminate.
    apply num_le_Fin in A. unfold num_gt in B. apply num_lt_Fin in B. lra. }
  destruct Hl as [[A ->] | [A ->]], Hl' as [[B ->] | [B ->]];
    first [reflexivity | exfalso; now apply Hexcl].
Qed.

(** ** The copies of [generatorFromExamples] *)

Lemma array_slice_new (array : loc) (elems : list loc) (h : heap) :
  h !! array = Some (ArrayObj elems) ->
  exists r, array_slice array h = Some (r, <[r := ArrayObj elems]> h) /\ h !! r = None.
Proof.
  intros H. unfold array_slice, alloc. rewrite H.
  exists (fresh (dom h)). split; [reflexivity |].
  apply not_elem_of_dom. apply is_fresh.
Qed.

(** An operation on the array [r] changes the heap at [r] only, where it
    leaves an array. *)
Lemma apply_array_op_frame (r : loc) (op : array_op) (h h' : heap) :
  apply_array_op r op h = Some h' ->
  is_array h r /\ is_array h' r /\ forall a, a ≠ r -> h' !! a = h !! a.
Proof.
  unfold apply_array_op. destruct (h !! r) as [[elems | p] |] eqn:E; try discriminate.
  intros H. split; [now exists elems |].
  destruct op as [i v | v |].
  - destruct (i <? length elems)%nat; [| discriminate]. injection H as <-.
    split; [eexists; apply lookup_insert_eq |].
    intros a Ha. now apply lookup_insert_ne.
  - injection H as <-. split; [eexists; apply lookup_insert_eq |].
    intros a Ha. now apply lookup_insert_ne.
  - injection H as <-. split; [eexists; apply lookup_insert_eq |].
    intros a Ha. now apply lookup_insert_ne.
Qed.

Lemma apply_array_ops_frame (r : loc) (ops : list array_op) (h h' : heap) :
  is_array h r ->
  apply_array_ops r ops h = Some h' ->
  is_array h' r /\ forall a, a ≠ r -> h' !! a = h !! a.
Proof.
  revert h. induction ops as [| op ops IH]; intros h Hr H; simpl in H.
  - injection H as <-. auto.
  - destruct (apply_array_op r op h) as [h1 |] eqn:E; [| discriminate].
    apply apply_array_op_frame in E as (_ & Hr1 & Hf1).
    destruct (IH h1 Hr1 H) as [Hr' Hf]. split; [exact Hr' |].
    intros a Ha. rewrite Hf by exact Ha. now apply Hf1.
Qed.

(** Two heaps that differ at an array only show the same points. *)
Lemma read_point_frame (r : loc) (h h' : heap) (p : loc) :
  (h !! r = None \/ is_array h r) -> is_array h' r ->
  (forall a, a ≠ r -> h' !! a = h !! a) ->
  read_point h' p = read_point h p.
Proof.
  intros Hr [l' Hr'] Hf. unfold read_point.
  destruct (decide (p = r)) as [-> | Hne].
  - rewrite Hr'. destruct Hr as [-> | [l ->]]; reflexivity.
  - now rewrite Hf.
Qed.

Lemma mapM_ext_all {B C : Type} (f g : B -> option C) (l : list B) :
  (forall b, f b = g b) -> mapM f l = mapM g l.
Proof.
  intros H. induction l as [| b l IH]; [reflexivity |].
  cbn. rewrite H, IH. reflexivity.
Qed.

Lemma read_collection_frame (r a : loc) (h h' : heap) :
  (h !! r = None \/ is_array h r) -> is_array h' r ->
  (forall a, a ≠ r -> h' !! a = h !! a) ->
  a ≠ r ->
  read_collection a h' = read_collection a h.
Proof.
  intros Hr Hr' Hf Ha. unfold read_collection. rewrite (Hf a Ha).
  destruct (h !! a) as [[elems | p] |]; try reflexivity.
  apply mapM_ext_all. intros p. now apply (read_point_frame r).
Qed.

(** A copy shows the points of the array it was taken from. *)
Lemma read_collection_copy (r a : loc) (elems : list loc) (h : heap) :
  h !! a = Some (ArrayObj elems) -> h !! r = None ->
  read_collection r (<[r := ArrayObj elems]> h) = read_collection a h.
Proof.
  intros Ha Hr. unfold read_collection. rewrite lookup_insert_eq, Ha.
  apply mapM_ext_all. intros p. apply (read_point_frame r).
  - now left.
  - eexists. apply lookup_insert_eq.
  - intros b Hb. now apply lookup_insert_ne.
Qed.

(** ** More on the loops of the generators *)

Lemma map_by_lookup {B : Type} (f : Example2D -> B) (g : nat -> B)
    (ps : list Example2D) (k : nat) :
  length ps = k ->
  (forall j p, ps !! j = Some p -> f p = g j) ->
  map f ps = map g (seq 0 k).
Proof.
  intros Hlen Hall. apply list_eq. intros j.
  change (map f ps) with (f <$> ps). change (map g (seq 0 k)) with (g <$> seq 0 k).
  rewrite !list_lookup_fmap.
  destruct (ps !! j) as [p |] eqn:E.
  - pose proof (lookup_lt_Some _ _ _ E) as Hj.
    rewrite (lookup_seq_lt 0 k j) by lia. simpl. f_equal. now apply Hall.
  - apply lookup_ge_None in E. rewrite lookup_seq_ge by lia. reflexivity.
Qed.

Section Coordinates.
Context {math : MathLib} {source : RandomSource}.

(** A loop whose turn stores coordinates that depend on the position of the
    tape only. *)
Lemma for_below_coords (cf : nat -> number * number) (c k limit : nat)
    (bound : number) (body : nat -> list Example2D -> M (list Example2D)) :
  (forall i, (of_nat i <? bound)%num = bool_decide (i < k)%nat) ->
  (k <= limit)%nat ->
  (forall i pts st, (i < k)%nat ->
     exists p, body i pts st = Some (pts ++ [p], (st + c)%nat) /\ coords p = cf st) ->
  forall pts st,
    exists ps,
      for_below limit bound body pts st = Some (pts ++ ps, (st + c * k)%nat)
      /\ map coords ps = map (fun j => cf (st + c * j)%nat) (seq 0 k).
Proof.
  intros Hcond Hk Hbody pts st.
  destruct (for_below_push (fun _ s p => coords p = cf s) c k limit bound body
              Hcond Hk Hbody pts st) as (ps & E & Hlen & Hall).
  exists ps. split; [exact E |]. now apply map_by_lookup.
Qed.

Lemma regressPlane_coords (numSamples : nat) (noise : number) (st : nat) :
  exists ps,
    regressPlane numSamples noise st = Some (ps, (st + 4 * numSamples)%nat)
    /\ map coords ps
       = map (fun j => ((Fin (draw (st + 4 * j)) * (6 - - (6 : number)) + - (6 : number))%num,
                        (Fin (draw (S (st + 4 * j))) * (6 - - (6 : number))
                         + - (6 : number))%num))
             (seq 0 numSamples).
Proof.
  unfold regressPlane. cbv zeta.
  apply (for_below_coords
           (fun s => ((Fin (draw s) * (6 - - (6 : number)) + - (6 : number))%num,
                      (Fin (draw (S s)) * (6 - - (6 : number)) + - (6 : number))%num))
           4 numSamples numSamples); [intros i; apply of_nat_lt | reflexivity |].
  intros i pts st0 Hi. cbv beta. run_turn.
  eexists. split;
    [ unfold push; replace (st0 + 4)%nat with (S (S (S (S st0)))) by lia; reflexivity
    | reflexivity ].
Qed.

Lemma regressGaussian_coords (numSamples : nat) (noise : number) (st : nat) :
  exists ps,
    regressGaussian numSamples noise st = Some (ps, (st + 4 * numSamples)%nat)
    /\ map coords ps
       = map (fun j => ((Fin (draw (st + 4 * j)) * (6 - - (6 : number)) + - (6 : number))%num,
                        (Fin (draw (S (st + 4 * j))) * (6 - - (6 : number))
                         + - (6 : number))%num))
             (seq 0 numSamples).
Proof.
  unfold regressGaussian. cbv zeta.
  apply (for_below_coords
           (fun s => ((Fin (draw s) * (6 - - (6 : number)) + - (6 : number))%num,
                      (Fin (draw (S s)) * (6 - - (6 : number)) + - (6 : number))%num))
           4 numSamples numSamples); [intros i; apply of_nat_lt | reflexivity |].
  intros i pts st0 Hi. cbv beta. run_turn.
  eexists. split;
    [ unfold push; replace (st0 + 4)%nat with (S (S (S (S st0)))) by lia; reflexivity
    | reflexivity ].
Qed.

Lemma classifyXORData_coords (numSamples : nat) (noise : number) (st : nat) :
  exists ps,
    classifyXORData numSamples noise st = Some (ps, (st + 4 * numSamples)%nat)
    /\ map coords ps
       = map (fun j => (pad 0.3 (Fin (draw (st + 4 * j)) * (5 - -5) + -5)%num,
                        pad 0.3 (Fin (draw (S (st + 4 * j))) * (5 - -5) + -5)%num))
             (seq 0 numSamples).
Proof.
  unfold classifyXORData. cbv zeta.
  apply (for_below_coords
           (fun s => (pad 0.3 (Fin (draw s) * (5 - -5) + -5)%num,
                      pad 0.3 (Fin (draw (S s)) * (5 - -5) + -5)%num))
           4 numSamples numSamples); [intros i; apply of_nat_lt | reflexivity |].
  intros i pts st0 Hi. cbv beta. run_turn.
  eexists. split;
    [ unfold push; replace (st0 + 4)%nat with (S (S (S (S st0)))) by lia; reflexivity
    | reflexivity ].
Qed.

(** The coordinates that a turn of a loop of [classifyCircleData] stores. *)
Definition ring_coords (lo hi : number) (s : nat) : number * number :=
  let r := (Fin (draw s) * (hi - lo) + lo)%num in
  let angle := (Fin (draw (S s)) * (2 * Math_PI - 0) + 0)%num in
  ((r * Math_sin angle)%num, (r * Math_cos angle)%num).

Lemma classifyCircleData_loop_coords (numSamples : nat) (noise radius lo hi : number)
    (pts0 : list Example2D) (st0 : nat) :
  exists ps,
    classifyCircleData_loop numSamples noise radius lo hi pts0 st0
    = Some (pts0 ++ ps, (st0 + 4 * ceil_half numSamples)%nat)
    /\ map coords ps
       = map (fun j => ring_coords lo hi (st0 + 4 * j)%nat) (seq 0 (ceil_half numSamples)).
Proof.
  unfold classifyCircleData_loop.
  apply (for_below_coords (ring_coords lo hi) 4 (ceil_half numSamples) numSamples);
    [intros i; apply of_nat_lt_half | apply ceil_half_le |].
  intros i pts st1 Hi. cbv beta zeta. run_turn.
  eexists. split;
    [ unfold push; replace (st1 + 4)%nat with (S (S (S (S st1)))) by lia; reflexivity
    | reflexivity ].
Qed.

Lemma classifyCircleData_coords (numSamples : nat) (noise : number) (st : nat) :
  exists ps,
    classifyCircleData numSamples noise st
    = Some (ps, (st + 8 * ceil_half numSamples)%nat)
    /\ map coords ps
       = map (fun j => ring_coords 0 (5 * 0.5)%num (st + 4 * j)%nat)
             (seq 0 (ceil_half numSamples))
         ++ map (fun j => ring_coords (5 * 0.7)%num 5
                            (st + 4 * ceil_half numSamples + 4 * j)%nat)
                (seq 0 (ceil_half numSamples)).
Proof.
  unfold classifyCircleData. cbv zeta.
  destruct (classifyCircleData_loop_coords numSamples noise 5 0 (5 * 0.5)%num [] st)
    as (ps1 & E1 & C1).
  unfold bind at 1. rewrite E1.
  destruct (classifyCircleData_loop_coords numSamples noise 5 (5 * 0.7)%num 5
              ([] ++ ps1) (st + 4 * ceil_half numSamples)%nat)
    as (ps2 & E2 & C2).
  unfold bind at 1. rewrite E2.
  exists (ps1 ++ ps2). unfold ret. simpl app.
  split; [do 2 f_equal; lia |].
  now rewrite map_app, C1, C2.
Qed.

(** *** Classes in order *)

Lemma classifyTwoGaussData_classes (fuel numSamples : nat) (noise : number)
    (st : nat) (ps : list Example2D) (st' : nat) :
  classifyTwoGaussData fuel numSamples noise st = Some (ps, st') ->
  two_classes (ceil_half numSamples) ps.
Proof.
  unfold classifyTwoGaussData. cbv zeta. unfold bind at 1.
  destruct (genGauss fuel numSamples _ 2 2 1 [] st) as [[ps1 st1] |] eqn:E1;
    [| discriminate].
  apply genGauss_partial in E1 as (qs1 & st1' & [= -> ->] & L1 & F1).
  unfold bind at 1.
  destruct (genGauss fuel numSamples _ (-2) (-2) (-1) _ st1') as [[ps2 st2] |] eqn:E2;
    [| discriminate].
  apply genGauss_partial in E2 as (qs2 & st2' & [= -> ->] & L2 & F2).
  intros [= <- <-]. simpl app. exists qs1, qs2. auto.
Qed.

Lemma classifyCsvDummy1_classes (fuel numSamples : nat) (noise : number)
    (st : nat) (ps : list Example2D) (st' : nat) :
  classifyCsvDummy1 fuel numSamples noise st = Some (ps, st') ->
  two_classes 80 ps.
Proof.
  unfold classifyCsvDummy1. cbv zeta. unfold bind at 1.
  destruct (classifyCsvDummy1_add fuel noise 2.5 2.5 1 80 [] st)
    as [[ps1 st1] |] eqn:E1; [| discriminate].
  apply classifyCsvDummy1_add_partial in E1 as (qs1 & st1' & [= -> ->] & L1 & F1).
  unfold bind at 1.
  destruct (classifyCsvDummy1_add fuel noise (-2.5) (-2.5) (-1) 80 _ st1')
    as [[ps2 st2] |] eqn:E2; [| discriminate].
  apply classifyCsvDummy1_add_partial in E2 as (qs2 & st2' & [= -> ->] & L2 & F2).
  intros [= <- <-]. simpl app. exists qs1, qs2. auto.
Qed.
End Coordinates.

(** ** More on the labels *)

Section MoreLabels.
Context {math : MathLib} {source : RandomSource}.

Lemma padded_of (u v : Q) :
  -5 <= u -> u < 5 ->
  (0 < u -> v == u + 0.3) -> (u <= 0 -> v == u - 0.3) -> padded v.
Proof.
  intros Hlo Hhi Hpos Hneg. unfold padded.
  destruct (Qlt_le_dec 0 u) as [L | L].
  - left. rewrite (Hpos L). lra.
  - right. rewrite (Hneg L). lra.
Qed.

Lemma padded_product (a b : Q) : padded a -> padded b -> ~ a * b == 0.
Proof. unfold padded. intros [Ha | Ha] [Hb | Hb] E; nra. Qed.

Lemma classifyXORData_stored (numSamples : nat) (nq : Q) (st : nat) :
  exists ps,
    classifyXORData numSamples (Fin nq) st = Some (ps, (st + 4 * numSamples)%nat)
    /\ Forall (xor_stored nq) ps.
Proof.
  destruct (classifyXORData_shape numSamples nq st) as (ps & E & _ & Hall).
  exists ps. split; [exact E |]. apply Forall_lookup. intros j p Hj.
  destruct (Hall j p Hj) as (vx & vy & Hp). cbv zeta in Hp.
  destruct Hp as (Ex & Ey & Hx1 & Hx2 & Hy1 & Hy2 & Hl).
  destruct (draw_range (st + 4 * j)) as [? ?].
  destruct (draw_range (st + 4 * j + 1)) as [? ?].
  assert (Px : padded vx) by (eapply padded_of; [| | exact Hx1 | exact Hx2]; lra).
  assert (Py : padded vy) by (eapply padded_of; [| | exact Hy1 | exact Hy2]; lra).
  exists vx, vy. repeat (split; [assumption |]).
  intros Hnq. pose proof (padded_product vx vy Px Py) as Hne.
  assert (Eprod : (vx + (10 * draw (st + 4 * j + 2) - 5) * nq)
                  * (vy + (10 * draw (st + 4 * j + 3) - 5) * nq) == vx * vy).
  { rewrite Hnq. ring. }
  rewrite Eprod in Hl.
  destruct Hl as [[L ->] | [L ->]].
  - split; split; intros Hyp; try reflexivity; try discriminate.
    + destruct (Qlt_le_dec 0 (vx * vy)) as [G | G]; [exact G |].
      exfalso. apply Hne. lra.
    + lra.
  - split; split; intros Hyp; try reflexivity; try discriminate; try assumption. lra.
Qed.


Lemma hillScale_Fin (d : Q) :
  exists s, d3_scale_linear 0 4 1 0 true (Fin d) = Fin s /\ 0 <= s /\ s <= 1.
Proof.
  unfold d3_scale_linear. cbn [num_sub num_opp num_add].
  rewrite num_div_Fin by (intros E; vm_compute in E; discriminate).
  destruct (clamp_unit ((d + - 0) / (4 + - 0))) as (c & -> & Hc & _).
  cbn [num_mul num_sub num_add num_opp].
  eexists. split; [reflexivity |]. lra.
Qed.

(** One hill of [regressCsvDummy2] at a finite place, for a sign of
    absolute value [1]. *)
Lemma hill_Fin (vx vy cx cy sign : Q) :
  Qabs sign <= 1 ->
  exists b,
    (Fin sign * d3_scale_linear 0 4 1 0 true
                  (dist {| Point_x := Fin vx; Point_y := Fin vy |}
                        {| Point_x := Fin cx; Point_y := Fin cy |}))%num = Fin b
    /\ -1 <= b /\ b <= 1.
Proof.
  intros Hs. destruct (dist_Fin vx vy cx cy) as (d & -> & Hd).
  destruct (hillScale_Fin d) as (s & -> & Hs0 & Hs1).
  cbn [num_mul]. eexists. split; [reflexivity |].
  apply Qabs_Qle_condition in Hs. nra.
Qed.

Lemma hills_label_bounded (vx vy : Q) :
  exists l, hills_label (Fin vx) (Fin vy) = Fin l /\ -1 <= l /\ l <= 1.
Proof.
  unfold hills_label. cbn [fold_left].
  destruct (hill_Fin vx vy (-2.5) 2.0 1) as (b1 & -> & H1); [vm_compute; discriminate |].
  destruct (hill_Fin vx vy 2.5 (-2.0) (-1)) as (b2 & -> & H2); [vm_compute; discriminate |].
  destruct (Math_abs (Fin b1) >? Math_abs (Fin 0))%num;
    destruct (Math_abs (Fin b2) >? Math_abs _)%num;
    eexists; (split; [reflexivity | lra]).
Qed.

Lemma regressCsvDummy2_points (numSamples : nat) (nq : Q) (st : nat) :
  0 <= nq ->
  exists ps,
    regressCsvDummy2 numSamples (Fin nq) st = Some (ps, (st + 4 * 200)%nat)
    /\ length ps = 200%nat
    /\ Forall (dummy2_point nq) ps.
Proof.
  intros Hnq. unfold regressCsvDummy2.
  edestruct (for_below_push (fun _ _ p => dummy2_point nq p) 4 200 200)
    as (ps & E & Hlen & Hall);
    [ intros i; apply of_nat_lt | reflexivity | | ].
  2: { exists ps. rewrite E. split; [reflexivity | split; [exact Hlen |]].
       apply Forall_lookup. intros j p Hj. exact (Hall j p Hj). }
  intros i pts st0 Hi. cbv beta. run_turn.
  cbn [num_sub num_opp num_add num_mul].
  eexists. split.
  - unfold push. replace (st0 + 4)%nat with (S (S (S (S st0)))) by lia. reflexivity.
  - pose proof (draw_range st0) as [? ?].
    pose proof (draw_range (S st0)) as [? ?].
    pose proof (draw_range (S (S st0))) as [? ?].
    pose proof (draw_range (S (S (S st0)))) as [? ?].
    match goal with
    | |- dummy2_point _ {| x := Fin ?vx; y := Fin ?vy; label := _ |} =>
        destruct (hills_label_bounded vx vy) as (l & El & Hl); exists vx, vy, l
    end.
    cbn [x y label].
    split; [reflexivity |]. split; [reflexivity |].
    split; [split; nra |]. split; [split; nra |].
    split; [reflexivity |]. split; [exact El | exact Hl].
Qed.

(** The ring and the label of a turn of [classifyCsvDummy2] follow the
    first draw of the turn. *)
Lemma classifyCsvDummy2_rings (numSamples : nat) (noise : number) (st : nat) :
  exists ps,
    classifyCsvDummy2 numSamples noise st = Some (ps, (st + 5 * 160)%nat)
    /\ length ps = 160%nat
    /\ forall j p, ps !! j = Some p ->
         (draw (st + 5 * j) < 0.5 /\ label p = Fin 1)
         \/ (0.5 <= draw (st + 5 * j) /\ label p = Fin (-1)).
Proof.
  unfold classifyCsvDummy2.
  apply (for_below_push
           (fun _ s p => (draw s < 0.5 /\ label p = Fin 1)
                         \/ (0.5 <= draw s /\ label p = Fin (-1))) 5 160 160);
    [ intros i; apply of_nat_lt | reflexivity | ].
  intros i pts st1 Hi. cbv beta zeta. rewrite bind_Math_random.
  replace (st1 + 5)%nat with (S (S (S (S (S st1))))) by lia.
  pose proof (draw_range (S st1)) as [? ?].
  destruct (Fin (draw st1) <? 0.5)%num eqn:Ec; run_turn;
    cbn [num_sub num_opp num_add num_mul];
    (eexists; split; [unfold push; reflexivity |]); cbn [label].
  - apply num_lt_Fin in Ec. left. split; [exact Ec |].
    match goal with
    | |- (if (Fin ?r <? Fin ?t)%num then _ else _) = _ =>
        assert (Er : (Fin r <? Fin t)%num = true) by (apply num_lt_Fin; lra);
        rewrite Er; reflexivity
    end.
  - apply num_lt_Fin_false in Ec. right. split; [exact Ec |].
    match goal with
    | |- (if (Fin ?r <? Fin ?t)%num then _ else _) = _ =>
        assert (Er : (Fin r <? Fin t)%num = false) by (apply num_lt_Fin_false; lra);
        rewrite Er; reflexivity
    end.
Qed.
End MoreLabels.

(** ** More on [shuffle] *)

Section ShuffleTurns.
Context {A : Type} (undefined : A) {source : RandomSource}.

(** The swap of a turn leaves the positions other than the two alone. *)
Lemma swap_lookup (array : list A) (i j n : nat) :
  (i < length array)%nat -> (j < length array)%nat ->
  let temp := array_get undefined array (of_nat i) in
  let array1 := array_set undefined array (of_nat i) (array_get undefined array (of_nat j)) in
  let array2 := array_set undefined array1 (of_nat j) temp in
  array2 !! i = array !! j /\ (n <> i -> n <> j -> array2 !! n = array !! n).
Proof.
  intros Hi Hj. cbv zeta.
  destruct (lookup_lt_is_Some_2 array i Hi) as [a Ha].
  destruct (lookup_lt_is_Some_2 array j Hj) as [b Hb].
  rewrite (array_get_of_nat _ _ _ _ Ha), (array_get_of_nat _ _ _ _ Hb).
  rewrite (array_set_of_nat _ array) by exact Hi.
  rewrite array_set_of_nat by (rewrite length_insert; exact Hj).
  split.
  - destruct (decide (i = j)) as [-> | Hne].
    + rewrite list_lookup_insert_eq by (rewrite length_insert; exact Hj). congruence.
    + rewrite list_lookup_insert_ne by auto.
      rewrite list_lookup_insert_eq by exact Hi. now rewrite Hb.
  - intros Hni Hnj. now rewrite !list_lookup_insert_ne by auto.
Qed.

(** The turns for the first [counter] positions leave the others alone. *)
Lemma shuffle_loop_frame (counter : nat) (array : list A) (st : nat) :
  (counter <= length array)%nat ->
  exists array',
    shuffle_loop undefined counter array st = Some (array', (st + counter)%nat)
    /\ forall n, (counter <= n)%nat -> array' !! n = array !! n.
Proof.
  revert array st. induction counter as [| counter IH]; intros array st Hc.
  - exists array. rewrite Nat.add_0_r. split; [reflexivity | auto].
  - cbn [shuffle_loop]. rewrite bind_Math_random. cbv zeta.
    destruct (draw_range st) as [H0 H1].
    destruct (random_index (draw st) (S counter) H0 H1 ltac:(lia)) as (k & -> & Hk).
    destruct (swap_permutes undefined array counter k ltac:(lia) ltac:(lia)) as [_ Hlen].
    cbv zeta in Hlen.
    destruct (IH _ (S st) ltac:(rewrite Hlen; lia)) as (array' & E & Hf).
    exists array'. rewrite E. split; [f_equal; f_equal; lia |].
    intros n Hn. rewrite Hf by lia.
    apply (swap_lookup array counter k n); lia.
Qed.
End ShuffleTurns.

(** ** More on the importer *)

(** What the callback adds to [out] is what it adds to the empty array. *)
Lemma import_row_app (isRegression : bool) (out : list Example2D) (row : csv_row) :
  import_row isRegression out row = out ++ import_row isRegression [] row.
Proof.
  unfold import_row. cbv zeta.
  destruct (isNaN _ || isNaN _ || isNaN _); [now rewrite app_nil_r | reflexivity].
Qed.

Lemma fold_import_row_concat (isRegression : bool) (rows : list csv_row)
    (out : list Example2D) :
  fold_left (import_row isRegression) rows out
  = out ++ concat (map (import_row isRegression []) rows).
Proof.
  revert out. induction rows as [| row rows IH]; intros out; simpl.
  - now rewrite app_nil_r.
  - rewrite IH, (import_row_app isRegression out row), <- app_assoc. reflexivity.
Qed.

Lemma import_row_same_fields (isRegression : bool) (row row' : csv_row) :
  same_fields row row' ->
  import_row isRegression [] row = import_row isRegression [] row'.
Proof.
  intros (Ex & Ey & Evs & Ev). unfold import_row. now rewrite Ex, Ey, Evs, Ev.
Qed.

Lemma import_row_relabel (row : csv_row) :
  import_row false [] row = map relabel (import_row true [] row).
Proof.
  unfold import_row. cbv zeta.
  destruct (isNaN _ || isNaN _ || isNaN _); reflexivity.
Qed.

Lemma imports_facts (isRegression : bool) (rows : list csv_row) (out : list Example2D) :
  imports isRegression rows out ->
  (length out <= length rows)%nat
  /\ Forall no_NaN out
  /\ (isRegression = false -> Forall unit_label out).
Proof.
  induction 1 as [| row rows p ps Hp _ (IHl & IHn & IHu) | row rows ps _ _ (IHl & IHn & IHu)].
  - split; [reflexivity |]. split; [constructor |]. intros _. constructor.
  - split; [simpl; lia |].
    destruct Hp as (vx & vy & vv & Hx & Hy & Hv & Epx & Epy & Hl).
    apply coerced_field_number in Hx as [_ Nx], Hy as [_ Ny], Hv as [_ Nv].
    split.
    + constructor; [| exact IHn]. unfold no_NaN. rewrite Epx, Epy.
      split; [exact Nx |]. split; [exact Ny |].
      destruct isRegression; [now rewrite Hl |].
      destruct Hl as [[_ ->] | [_ ->]]; reflexivity.
    + intros ->. constructor; [| now apply IHu].
      destruct Hl as [[_ E] | [_ E]]; [right | left]; exact E.
  - split; [simpl; lia |]. auto.
Qed.

(** Writing another column leaves the fields of the importer alone. *)
Lemma value_insert_fields (row : csv_row) (s v : string) :
  row !! "values" = Some s ->
  (<["value" := v]> row : csv_row) !! "x" = row !! "x"
  /\ (<["value" := v]> row : csv_row) !! "y" = row !! "y"
  /\ (<["value" := v]> row : csv_row) !! "values" = Some s.
Proof.
  intros H. rewrite !lookup_insert_ne by discriminate. auto.
Qed.

(** ** More on the heap *)

Lemma point_write_keeps_arrays (p : loc) (f : point_field) (v : number) (h h' : heap)
    (a : loc) (elems : list loc) :
  point_write p f v h = Some h' ->
  h !! a = Some (ArrayObj elems) -> h' !! a = Some (ArrayObj elems).
Proof.
  unfold point_write. destruct (h !! p) as [[l | e] |] eqn:E; try discriminate.
  intros [= <-] Ha. rewrite lookup_insert_ne; [exact Ha |]. intros ->. congruence.
Qed.

Lemma apply_point_writes_keep_arrays (ws : list (loc * point_field * number))
    (h h' : heap) (a : loc) (elems : list loc) :
  apply_point_writes ws h = Some h' ->
  h !! a = Some (ArrayObj elems) -> h' !! a = Some (ArrayObj elems).
Proof.
  revert h. induction ws as [| [[p f] v] ws IH]; intros h H Ha; simpl in H.
  - now injection H as <-.
  - destruct (point_write p f v h) as [h1 |] eqn:E; [| discriminate].
    apply (IH h1 H). exact (point_write_keeps_arrays p f v h h1 a elems E Ha).
Qed.

(** * The properties of the module *)

(** ** Number of points *)

(** C1. The generators of one loop return [numSamples] points and the
    presets their constant count ([one_loop_lengths]), but the generators
    that split the samples in two classes loop while [i < numSamples / 2]
    for each class: for an odd [numSamples = 2 k + 1] each class gets
    [k + 1] points, and the collection has [numSamples + 1] points
    ([classifyTwoGaussData] returns when the rejection loop of
    [normalRandom] has fuel enough for the tape).  The last part runs [classifyTwoGaussData] on [steady_tape], where
    [normalRandom] accepts at once. *)
Theorem odd_numSamples_one_point_more :
  forall (math : MathLib) (source : RandomSource) (k : nat) (noise : number) (st : nat),
    (exists ps st', classifySpiralData (2 * k + 1) noise st = Some (ps, st')
       /\ length ps = (2 * k + 2)%nat)
    /\ (exists ps st', classifyCircleData (2 * k + 1) noise st = Some (ps, st')
          /\ length ps = (2 * k + 2)%nat)
    /\ (forall fuel ps st',
          classifyTwoGaussData fuel (2 * k + 1) noise st = Some (ps, st') ->
          length ps = (2 * k + 2)%nat)
    /\ (forall fuel, accepting fuel ->
          exists ps st', classifyTwoGaussData fuel (2 * k + 1) noise st = Some (ps, st')
            /\ length ps = (2 * k + 2)%nat)
    /\ (exists ps st',
          classifyTwoGaussData (math := ref_math) (source := steady_tape)
            1 3 (Fin 0) 0%nat = Some (ps, st')
          /\ length ps = 4%nat).
Proof.
  intros math source k noise st.
  assert (Hk : (2 * ceil_half (2 * k + 1) = 2 * k + 2)%nat).
  { rewrite ceil_half_double. replace (2 * k + 1)%nat with (S (2 * k)) by lia.
    rewrite Nat.odd_succ, Nat.even_mul. simpl. lia. }
  destruct (two_class_lengths 0 (2 * k + 1) noise st) as (_ & Hs & Hc).
  split; [| split; [| split; [| split]]].
  - destruct Hs as (ps & st' & E & L). exists ps, st'. split; [exact E | lia].
  - destruct Hc as (ps & st' & E & L). exists ps, st'. split; [exact E | lia].
  - intros fuel ps st' E. apply classifyTwoGaussData_partial in E as [L _]. lia.
  - intros fuel Hacc.
    destruct (normalRandom_generators_return fuel (2 * k + 1) noise st Hacc)
      as ((ps & st' & E & L & _) & _).
    exists ps, st'. split; [exact E | lia].
  - eexists _, _. split; [vm_compute; reflexivity | reflexivity].
Qed.

(** ** Labels of the regression generators *)




(** ** The importer *)

(** C3. When the text parses to [rows], the importer returns the points of
    the rows that are included, in the order of the rows ([imports]): a row
    is included exactly when [x], [y] and the value field ([values], else
    [value]) are present and coerce to a number, its label being the value
    for a regression and [-1] for a value of at most [0], [+1] for a value
    above [0], otherwise; a row gives at most one point.  The scenario text
    gives the two points [(1, 2, 1)] and [(3, 4, -1)]. *)
Theorem parseCsvTextToExamples_includes_numeric_rows :
  forall (parse : string -> completion (list csv_row)) (csvText : string)
         (isRegression : bool) (rows : list csv_row),
    parse csvText = Normal rows ->
    (exists out,
       outcome (parseCsvTextToExamples parse csvText isRegression) = Normal out
       /\ imports isRegression rows out)
    /\ (forall row p q,
          included isRegression row p -> included isRegression row q -> p = q)
    /\ outcome (parseCsvTextToExamples csv_parse scenario_text false)
       = Normal [ {| x := Fin 1; y := Fin 2; label := Fin 1 |};
                  {| x := Fin 3; y := Fin 4; label := Fin (-1) |} ].
Proof.
  intros parse csvText isRegression rows Hparse. split; [| split].
  - unfold parseCsvTextToExamples. rewrite Hparse. cbn [try_catch outcome].
    destruct (fold_import_row isRegression rows []) as (ps & E & Hps).
    exists ps. rewrite E. split; [reflexivity | exact Hps].
  - apply included_unique.
  - vm_compute. reflexivity.
Qed.

Lemma parseCsvTextToExamples_includes_numeric_rows_witness :
  let rows :=
    [ row_object ["x"; "y"; "values"] ["1"; "2"; "0.5"];
      row_object ["x"; "y"; "values"] ["3"; "4"; "-0.2"];
      row_object ["x"; "y"; "values"] ["bad"; "4"; "1"] ]%string in
  csv_parse scenario_text = Normal rows
  /\ (exists out,
        outcome (parseCsvTextToExamples csv_parse scenario_text true) = Normal out
        /\ imports true rows out)
  /\ (forall row p q, included true row p -> included true row q -> p = q)
  /\ outcome (parseCsvTextToExamples csv_parse scenario_text false)
     = Normal [ {| x := Fin 1; y := Fin 2; label := Fin 1 |};
                {| x := Fin 3; y := Fin 4; label := Fin (-1) |} ].
Proof.
  split; [reflexivity |].
  apply (parseCsvTextToExamples_includes_numeric_rows csv_parse scenario_text true).
  reflexivity.
Defined.

(** C9. The importer returns normally on every text, whatever
    [d3.csv.parse] does: when the parser throws, the result is the empty
    collection and the failure is written to the console. *)
Theorem parseCsvTextToExamples_never_throws :
  forall (parse : string -> completion (list csv_row)) (csvText : string)
         (isRegression : bool),
    exists out,
      outcome (parseCsvTextToExamples parse csvText isRegression) = Normal out
      /\ forall e, parse csvText = Throw e ->
           out = []
           /\ console (parseCsvTextToExamples parse csvText isRegression)
              = [("Failed to parse CSV text"%string, e)].
Proof.
  intros parse csvText isRegression. unfold parseCsvTextToExamples.
  destruct (parse csvText) as [rows | e0]; cbn [try_catch outcome console].
  - eexists. split; [reflexivity |]. intros e H. discriminate.
  - exists []. split; [reflexivity |]. intros e [= <-]. auto.
Qed.

(** ** [normalRandom] *)

(** C4 fails on the code.  The loop of [normalRandom] goes on only while
    [s > 1], so it accepts [s = 0]: when [Math.random] returns [0.5] twice,
    [v1 = v2 = 0] and [s = 0], the logarithm of zero is taken, and the
    result is [Math.sqrt(Infinity) * 0], which is [NaN]. *)
Theorem normalRandom_accepts_zero :
  forall (math : MathLib) (fuel : nat) (mean variance : number) (st : nat),
    (exists v1 s : Q,
       normalRandom_loop (source := tape_of (fun _ => 0.5)) (S fuel) st
       = Some ((Fin v1, Fin s), S (S st))
       /\ v1 == 0 /\ s == 0)
    /\ normalRandom (source := tape_of (fun _ => 0.5)) (S fuel) mean variance st
       = Some (NaN, S (S st)).
Proof.
  intros math fuel mean variance st.
  assert (Hloop : normalRandom_loop (source := tape_of (fun _ => 0.5)) (S fuel) st
                  = Some ((Fin (2 * 0.5 + - (1)),
                           Fin ((2 * 0.5 + - (1)) * (2 * 0.5 + - (1))
                                + (2 * 0.5 + - (1)) * (2 * 0.5 + - (1)))), S (S st)))
    by reflexivity.
  split.
  - eexists _, _. split; [exact Hloop |]. split; reflexivity.
  - unfold normalRandom, bind. rewrite Hloop. unfold ret.
    rewrite Math_log_zero by reflexivity.
    change (-2 * NInf)%num with PInf.
    change (PInf / Fin ((2 * 0.5 + - (1)) * (2 * 0.5 + - (1))
                        + (2 * 0.5 + - (1)) * (2 * 0.5 + - (1))))%num with PInf.
    rewrite Math_sqrt_PInf.
    change (PInf * Fin (2 * 0.5 + - (1)))%num with NaN.
    destruct (Math_sqrt variance), mean; reflexivity.
Qed.

(** ** [shuffle] *)

(** C6. [shuffle] returns on every array, after one turn per position (it
    reads one draw per element), and leaves a permutation of the array, of
    the same length. *)
Theorem shuffle_permutes :
  forall (A : Type) (undefined : A) (source : RandomSource) (array : list A) (st : nat),
    exists array',
      shuffle undefined array st = Some (array', (st + length array)%nat)
      /\ length array' = length array
      /\ array' ≡ₚ array.
Proof.
  intros A undefined source array st. unfold shuffle.
  destruct (shuffle_loop_permutes undefined (length array) array st (le_n _))
    as (array' & E & Hp & Hl).
  exists array'. auto.
Qed.

(** ** [generatorFromExamples] *)

(** C5, as stated, fails: the copy holds the points of the backing
    collection themselves.  Writing [x] of the first point of a returned
    collection changes what the backing collection shows. *)
Lemma copy_shares_points :
  exists (r : loc) (h1 : heap) (p : loc) (h2 : heap),
    generatorFromExamples 0%nat 7%nat (Fin 0.25) example_heap = Some (r, h1)
    /\ array_read r 0 h1 = Some p
    /\ point_write p FieldX (Fin 99) h1 = Some h2
    /\ read_collection 0%nat example_heap
       = Some [ {| x := Fin 1; y := Fin 2; label := Fin 1 |} ]
    /\ read_collection 0%nat h2
       = Some [ {| x := Fin 99; y := Fin 2; label := Fin 1 |} ].
Proof.
  eexists _, _, _, _. repeat split; vm_compute; reflexivity.
Qed.

(** C5, amended.  Every call of the generator ignores its arguments and
    returns a new array that holds the points of the backing collection
    (the same point objects, not copies of them).  Two successive calls
    return two different arrays, both different from the backing
    collection; each shows the points of the backing collection; and
    setting, pushing or popping elements of one of them changes neither
    what the backing collection shows nor what the other one shows. *)
Theorem generatorFromExamples_copies_the_array :
  forall (h : heap) (examples : loc) (elems : list loc)
         (numSamples1 numSamples2 : nat) (noise1 noise2 : number),
    h !! examples = Some (ArrayObj elems) ->
    exists (r1 : loc) (h1 : heap) (r2 : loc) (h2 : heap),
      generatorFromExamples examples numSamples1 noise1 h = Some (r1, h1)
      /\ generatorFromExamples examples numSamples2 noise2 h1 = Some (r2, h2)
      /\ (forall n noise, generatorFromExamples examples n noise h = Some (r1, h1))
      /\ (r1 ≠ examples /\ r2 ≠ examples /\ r1 ≠ r2)
      /\ (h !! r1 = None /\ h1 !! r2 = None)
      /\ (h2 !! r1 = Some (ArrayObj elems) /\ h2 !! r2 = Some (ArrayObj elems)
          /\ h2 !! examples = Some (ArrayObj elems))
      /\ (read_collection r1 h2 = read_collection examples h
          /\ read_collection r2 h2 = read_collection examples h
          /\ read_collection examples h2 = read_collection examples h)
      /\ (forall ops h3, apply_array_ops r1 ops h2 = Some h3 ->
            read_collection examples h3 = read_collection examples h
            /\ read_collection r2 h3 = read_collection r2 h2)
      /\ (forall ops h3, apply_array_ops r2 ops h2 = Some h3 ->
            read_collection examples h3 = read_collection examples h
            /\ read_collection r1 h3 = read_collection r1 h2).
Proof.
  intros h examples elems n1 n2 noise1 noise2 Hex.
  unfold generatorFromExamples.
  destruct (array_slice_new examples elems h Hex) as (r1 & E1 & F1).
  set (h1 := <[r1 := ArrayObj elems]> h) in *.
  assert (N1 : r1 ≠ examples) by (intros ->; congruence).
  assert (Hex1 : h1 !! examples = Some (ArrayObj elems)).
  { unfold h1. now rewrite lookup_insert_ne. }
  destruct (array_slice_new examples elems h1 Hex1) as (r2 & E2 & F2).
  set (h2 := <[r2 := ArrayObj elems]> h1) in *.
  assert (N2 : r2 ≠ examples) by (intros ->; congruence).
  assert (N12 : r1 ≠ r2).
  { intros ->. unfold h1 in F2. rewrite lookup_insert_eq in F2. discriminate. }
  assert (A1 : is_array h2 r1).
  { exists elems. unfold h2, h1. rewrite lookup_insert_ne by auto. apply lookup_insert_eq. }
  assert (A2 : is_array h2 r2) by (exists elems; apply lookup_insert_eq).
  assert (R1 : read_collection r1 h1 = read_collection examples h)
    by (now apply read_collection_copy).
  assert (R2 : read_collection r2 h2 = read_collection examples h1)
    by (now apply read_collection_copy).
  assert (Fr1 : forall a, a ≠ r1 -> read_collection a h1 = read_collection a h).
  { intros a Ha. apply (read_collection_frame r1); auto.
    - eexists. apply lookup_insert_eq.
    - intros b Hb. now apply lookup_insert_ne. }
  assert (Fr2 : forall a, a ≠ r2 -> read_collection a h2 = read_collection a h1).
  { intros a Ha. apply (read_collection_frame r2); auto.
    intros b Hb. now apply lookup_insert_ne. }
  exists r1, h1, r2, h2.
  split; [exact E1 |]. split; [exact E2 |]. split; [intros; exact E1 |].
  split; [auto |]. split; [auto |].
  split.
  { unfold h2, h1. split; [| split].
    - rewrite lookup_insert_ne by auto. apply lookup_insert_eq.
    - apply lookup_insert_eq.
    - rewrite !lookup_insert_ne by auto. exact Hex. }
  split.
  { rewrite (Fr2 r1) by auto. rewrite R1, R2. rewrite (Fr1 examples) by auto.
    rewrite (Fr2 examples) by auto. rewrite (Fr1 examples) by auto. auto. }
  split.
  - intros ops h3 H3.
    destruct (apply_array_ops_frame r1 ops h2 h3 A1 H3) as [A3 Hf].
    split.
    + rewrite (read_collection_frame r1 examples h2 h3) by auto.
      rewrite (Fr2 examples) by auto. now apply Fr1.
    + apply (read_collection_frame r1); auto.
  - intros ops h3 H3.
    destruct (apply_array_ops_frame r2 ops h2 h3 A2 H3) as [A3 Hf].
    split.
    + rewrite (read_collection_frame r2 examples h2 h3) by auto.
      rewrite (Fr2 examples) by auto. now apply Fr1.
    + apply (read_collection_frame r2); auto.
Qed.

Lemma generatorFromExamples_copies_the_array_witness :
  example_heap !! 0%nat = Some (ArrayObj [1%nat])
  /\ exists (r1 : loc) (h1 : heap) (r2 : loc) (h2 : heap),
      generatorFromExamples 0%nat 3%nat (Fin 0) example_heap = Some (r1, h1)
      /\ generatorFromExamples 0%nat 5%nat (Fin 0.5) h1 = Some (r2, h2)
      /\ (forall n noise, generatorFromExamples 0%nat n noise example_heap = Some (r1, h1))
      /\ (r1 ≠ 0%nat /\ r2 ≠ 0%nat /\ r1 ≠ r2)
      /\ (example_heap !! r1 = None /\ h1 !! r2 = None)
      /\ (h2 !! r1 = Some (ArrayObj [1%nat]) /\ h2 !! r2 = Some (ArrayObj [1%nat])
          /\ h2 !! 0%nat = Some (ArrayObj [1%nat]))
      /\ (read_collection r1 h2 = read_collection 0%nat example_heap
          /\ read_collection r2 h2 = read_collection 0%nat example_heap
          /\ read_collection 0%nat h2 = read_collection 0%nat example_heap)
      /\ (forall ops h3, apply_array_ops r1 ops h2 = Some h3 ->
            read_collection 0%nat h3 = read_collection 0%nat example_heap
            /\ read_collection r2 h3 = read_collection r2 h2)
      /\ (forall ops h3, apply_array_ops r2 ops h2 = Some h3 ->
            read_collection 0%nat h3 = read_collection 0%nat example_heap
            /\ read_collection r1 h3 = read_collection r1 h2).
Proof.
  split; [reflexivity |].
  apply (generatorFromExamples_copies_the_array example_heap 0%nat [1%nat]
           3%nat 5%nat (Fin 0) (Fin 0.5)).
  reflexivity.
Defined.

(** ** Labels of [regressGaussian] *)

(** C7. Every point of [regressGaussian] is tied to the four draws of its
    turn ([gauss_turn]): its label is [getLabel] at its stored coordinates
    plus the noise of the turn.  At a finite place [(vx, vy)] the six bumps
    have the values [bs], one per centre of [six_centres] in their order:
    the value of a bump is the sign of its centre times the scale of the
    distance [d] to the centre, which takes [[0, 2]] to [[1, 0]] and is [0]
    from [2] on ([bump_of]).  The label is the value [b] of the bump of an
    index [i] such that no bump has a larger absolute value and every bump
    before [i] has a smaller one: among bumps of equal absolute value the
    first one is kept. *)
Theorem regressGaussian_label_largest_bump :
  forall (math : MathLib) (source : RandomSource),
    (forall (numSamples : nat) (nq : Q) (st : nat),
       exists ps,
         regressGaussian numSamples (Fin nq) st = Some (ps, (st + 4 * numSamples)%nat)
         /\ length ps = numSamples
         /\ forall j p, ps !! j = Some p ->
              gauss_turn nq (draw (st + 4 * j)) (draw (st + 4 * j + 1))
                         (draw (st + 4 * j + 2)) (draw (st + 4 * j + 3)) p)
    /\ (forall vx vy : Q,
          exists bs : list Q,
            map (bump (Fin vx) (Fin vy)) gaussians = map Fin bs
            /\ Forall2 (bump_of vx vy) six_centres bs
            /\ exists (i : nat) (b : Q),
                 bs !! i = Some b
                 /\ num_same (getLabel (Fin vx) (Fin vy)) (Fin b)
                 /\ (forall j b', bs !! j = Some b' -> Qabs b' <= Qabs b)
                 /\ (forall j b', (j < i)%nat -> bs !! j = Some b' ->
                       Qabs b' < Qabs b)).
Proof.
  intros math source. split.
  - apply regressGaussian_turns.
  - apply getLabel_first_largest.
Qed.

(** ** Labels of the classification generators *)

(** C8. Every label of a point returned by a classification generator is
    [1] or [-1].  [classifyTwoGaussData] and [classifyCsvDummy1] draw with
    [normalRandom]: the labels of the collection they return are [1] or
    [-1], and they return when the rejection loop has fuel enough for the
    tape. *)
Theorem classification_labels_unit :
  forall (math : MathLib) (source : RandomSource) (fuel numSamples : nat)
         (noise : number) (st : nat),
    (forall ps st', classifyTwoGaussData fuel numSamples noise st = Some (ps, st') ->
       Forall unit_label ps)
    /\ (accepting fuel ->
        exists ps st', classifyTwoGaussData fuel numSamples noise st = Some (ps, st')
          /\ Forall unit_label ps)
    /\ (exists ps st', classifySpiralData numSamples noise st = Some (ps, st')
          /\ Forall unit_label ps)
    /\ (exists ps st', classifyCircleData numSamples noise st = Some (ps, st')
          /\ Forall unit_label ps)
    /\ (exists ps st', classifyXORData numSamples noise st = Some (ps, st')
          /\ Forall unit_label ps)
    /\ (forall ps st', classifyCsvDummy1 fuel numSamples noise st = Some (ps, st') ->
          Forall unit_label ps)
    /\ (accepting fuel ->
        exists ps st', classifyCsvDummy1 fuel numSamples noise st = Some (ps, st')
          /\ Forall unit_label ps)
    /\ (exists ps st', classifyCsvDummy2 numSamples noise st = Some (ps, st')
          /\ Forall unit_label ps).
Proof.
  intros math source fuel numSamples noise st.
  split; [| split; [| split; [| split; [| split; [| split; [| split]]]]]].
  - intros ps st' E. now apply classifyTwoGaussData_partial in E.
  - intros Hacc.
    destruct (normalRandom_generators_return fuel numSamples noise st Hacc)
      as ((ps & st' & E & _ & F) & _).
    eauto.
  - destruct (classifySpiralData_shape numSamples noise st)
      as (ps1 & ps2 & E & _ & _ & F1 & F2).
    eexists _, _. split; [exact E |].
    apply Forall_app. split; eapply Forall_impl; eauto; unfold unit_label; auto.
  - destruct (classifyCircleData_shape numSamples noise st) as (ps & E & _ & F).
    eauto.
  - destruct (classifyXORData_labels numSamples noise st) as (ps & E & F). eauto.
  - intros ps st' E. now apply classifyCsvDummy1_partial in E.
  - intros Hacc.
    destruct (normalRandom_generators_return fuel numSamples noise st Hacc)
      as (_ & (ps & st' & E & _ & F)).
    eauto.
  - destruct (classifyCsvDummy2_shape numSamples noise st) as (ps & E & _ & F).
    eauto.
Qed.

(** The generators that draw with [normalRandom] return on [steady_tape],
    with labels [1] and [-1]. *)
Lemma classification_labels_unit_witness :
  accepting (source := steady_tape) 1
  /\ (exists ps st',
        classifyTwoGaussData (math := ref_math) (source := steady_tape)
          1 4 (Fin 0.25) 0%nat = Some (ps, st')
        /\ Forall unit_label ps)
  /\ (exists ps st',
        classifyCsvDummy1 (math := ref_math) (source := steady_tape)
          1 4 (Fin 0.25) 0%nat = Some (ps, st')
        /\ Forall unit_label ps).
Proof.
  pose proof (classification_labels_unit ref_math steady_tape 1 4 (Fin 0.25) 0%nat)
    as (_ & H1 & _ & _ & _ & _ & H2 & _).
  split; [exact steady_tape_accepting |].
  split; [exact (H1 steady_tape_accepting) | exact (H2 steady_tape_accepting)].
Defined.

(** ** Labels of [classifyXORData] *)

(** C10. The point that turn [j] of [classifyXORData] pushes stores the
    padded coordinates, without noise, and its label is [1] exactly when
    the product of the padded coordinates plus noise is at least zero
    ([xor_point]); a product of zero gives the label [1]. *)
Theorem classifyXORData_label_rule :
  forall (math : MathLib) (source : RandomSource) (numSamples : nat) (nq : Q) (st : nat),
    (exists ps,
       classifyXORData numSamples (Fin nq) st = Some (ps, (st + 4 * numSamples)%nat)
       /\ length ps = numSamples
       /\ forall j p, ps !! j = Some p ->
            xor_point nq (draw (st + 4 * j)) (draw (st + 4 * j + 1))
                      (draw (st + 4 * j + 2)) (draw (st + 4 * j + 3)) p)
    /\ (forall a b : Q,
          (getXORLabel {| Point_x := Fin a; Point_y := Fin b |} = Fin 1 <-> 0 <= a * b)
          /\ (getXORLabel {| Point_x := Fin a; Point_y := Fin b |} = Fin (-1) <-> a * b < 0))
    /\ (forall a b : Q, a * b == 0 ->
          getXORLabel {| Point_x := Fin a; Point_y := Fin b |} = Fin 1).
Proof.
  intros math source numSamples nq st. split; [| split].
  - apply classifyXORData_shape.
  - intros a b. destruct (getXORLabel_Fin a b) as [[L E] | [L E]]; rewrite E.
    + split; split; intros H; try reflexivity; try assumption; [discriminate | lra].
    + split; split; intros H; try reflexivity; try assumption; [discriminate | lra].
  - intros a b H. destruct (getXORLabel_Fin a b) as [[L E] | [L E]]; [exact E | lra].
Qed.

(** * Further properties of the module *)

(** ** [randUniform] and [normalRandom] *)

(** [randUniform(a, b)] with [a <= b] reads one draw and returns a value of
    the closed range [[a, b]]; when [a = b] it returns [a].  The bounds are
    taken within [range_limit], so that [b - a] is a finite number of the
    source as well. *)
Theorem randUniform_within :
  forall (source : RandomSource) (a b : Q) (st : nat),
    - range_limit <= a -> a <= b -> b <= range_limit ->
    exists v : Q,
      randUniform (Fin a) (Fin b) st = Some (Fin v, S st)
      /\ a <= v /\ v <= b /\ (a == b -> v == a).
Proof.
  intros source a b st _ Hab _. destruct (draw_range st) as [H0 H1].
  unfold randUniform. rewrite bind_Math_random. cbn [num_sub num_opp num_add num_mul].
  eexists. split; [reflexivity |].
  assert (Hlo : 0 <= draw st * (b + - a)) by (apply Qmult_le_0_compat; lra).
  assert (Hhi : 0 <= (1 - draw st) * (b + - a)) by (apply Qmult_le_0_compat; lra).
  split; [lra |]. split; [lra |].
  intros Heq. rewrite Heq. ring.
Qed.

Lemma randUniform_within_witness :
  - range_limit <= -6 /\ -6 <= 6 /\ 6 <= range_limit
  /\ exists v : Q,
       randUniform (source := steady_tape) (Fin (-6)) (Fin 6) 0%nat = Some (Fin v, 1%nat)
       /\ -6 <= v /\ v <= 6 /\ (-6 == 6 -> v == -6).
Proof.
  split; [vm_compute; discriminate |].
  split; [vm_compute; discriminate |].
  split; [vm_compute; discriminate |].
  apply (randUniform_within steady_tape (-6) 6 0%nat); vm_compute; discriminate.
Defined.

(** The loop of [normalRandom] returns the first pair of draws whose
    squared sum is not above [1]: when the pairs before the [k]-th have a
    sum above [1] and the [k]-th has not, the loop returns at the [k]-th
    pair, after [2 (k + 1)] draws, with [v1 = 2 d - 1] and [0 <= s <= 1]. *)
Theorem normalRandom_loop_first_accepted :
  forall (source : RandomSource) (fuel st k : nat),
    (k < fuel)%nat ->
    (forall j, (j < k)%nat -> 1 < pair_s (draw (st + 2 * j)) (draw (st + 2 * j + 1))) ->
    pair_s (draw (st + 2 * k)) (draw (st + 2 * k + 1)) <= 1 ->
    normalRandom_loop fuel st
    = Some ((Fin (pair_v (draw (st + 2 * k))),
             Fin (pair_s (draw (st + 2 * k)) (draw (st + 2 * k + 1)))),
            (st + 2 * (k + 1))%nat)
    /\ -1 <= pair_v (draw (st + 2 * k)) < 1
    /\ 0 <= pair_s (draw (st + 2 * k)) (draw (st + 2 * k + 1)).
Proof.
  intros source fuel. induction fuel as [| fuel IH]; intros st k Hk Hrej Hacc; [lia |].
  split.
  - cbn [normalRandom_loop]. rewrite bind_Math_random, bind_Math_random.
    cbn [num_sub num_opp num_add num_mul]. fold (pair_v (draw st)) (pair_v (draw (S st))).
    fold (pair_s (draw st) (draw (S st))).
    destruct k as [| k].
    + replace (st + 2 * 0)%nat with st in * by lia.
      replace (st + 1)%nat with (S st) in * by lia.
      assert (E : (Fin (pair_s (draw st) (draw (S st))) >? 1)%num = false)
        by (unfold num_gt; now apply num_lt_Fin_false).
      rewrite E. unfold ret. do 2 f_equal. lia.
    + assert (E : (Fin (pair_s (draw st) (draw (S st))) >? 1)%num = true).
      { unfold num_gt. apply num_lt_Fin. specialize (Hrej 0%nat ltac:(lia)).
        replace (st + 2 * 0)%nat with st in Hrej by lia.
        now replace (st + 1)%nat with (S st) in Hrej by lia. }
      rewrite E.
      destruct (IH (S (S st)) k ltac:(lia)) as [-> _].
      * intros j Hj. specialize (Hrej (S j) ltac:(lia)).
        now replace (S (S st) + 2 * j)%nat with (st + 2 * S j)%nat by lia.
      * now replace (S (S st) + 2 * k)%nat with (st + 2 * S k)%nat by lia.
      * replace (S (S st) + 2 * k)%nat with (st + 2 * S k)%nat by lia.
        do 2 f_equal. lia.
  - destruct (draw_range (st + 2 * k)) as [H0 H1]. unfold pair_s, pair_v.
    split; [lra |].
    pose proof (Qsquare_nonneg (2 * draw (st + 2 * k) + - (1))).
    pose proof (Qsquare_nonneg (2 * draw (st + 2 * k + 1) + - (1))). lra.
Qed.

Lemma normalRandom_loop_first_accepted_witness :
  let d := draw (RandomSource := late_tape) in
  1 < pair_s (d 0%nat) (d 1%nat)
  /\ pair_s (d 2%nat) (d 3%nat) <= 1
  /\ normalRandom_loop (source := late_tape) 2 0%nat
     = Some ((Fin (pair_v (d 2%nat)), Fin (pair_s (d 2%nat) (d 3%nat))), 4%nat).
Proof.
  assert (H1 : (1 < 2)%nat) by lia.
  assert (H2 : forall j, (j < 1)%nat ->
            1 < pair_s (draw (RandomSource := late_tape) (0 + 2 * j)%nat)
                       (draw (RandomSource := late_tape) (0 + 2 * j + 1)%nat)).
  { intros j Hj. destruct j; [reflexivity | lia]. }
  assert (H3 : pair_s (draw (RandomSource := late_tape) (0 + 2 * 1)%nat)
                      (draw (RandomSource := late_tape) (0 + 2 * 1 + 1)%nat) <= 1).
  { vm_compute. discriminate. }
  split; [reflexivity |]. split; [exact H3 |].
  exact (proj1 (normalRandom_loop_first_accepted late_tape 2 0 1 H1 H2 H3)).
Defined.

(** ** The generators *)

(** With [numSamples = 0] every procedural generator returns the empty
    collection and reads no draw, whatever the noise (and whatever the fuel
    of the rejection loop, which is not entered). *)
Theorem zero_samples_empty :
  forall (math : MathLib) (source : RandomSource) (fuel : nat) (noise : number) (st : nat),
    classifyTwoGaussData fuel 0 noise st = Some ([], st)
    /\ classifySpiralData 0 noise st = Some ([], st)
    /\ classifyCircleData 0 noise st = Some ([], st)
    /\ classifyXORData 0 noise st = Some ([], st)
    /\ regressPlane 0 noise st = Some ([], st)
    /\ regressGaussian 0 noise st = Some ([], st).
Proof. intros. repeat split; reflexivity. Qed.

(** The generators of two classes return the points of label [1] first and
    the points of label [-1] after them, as many of each:
    [ceil (numSamples / 2)] for [classifySpiralData] and
    [classifyTwoGaussData], 80 for [classifyCsvDummy1].  The last two draw
    with [normalRandom]: every collection they return has this form,
    whatever the tape and the fuel, and they return when the rejection loop
    has fuel enough for the tape. *)
Theorem classes_in_order :
  forall (math : MathLib) (source : RandomSource) (fuel numSamples : nat)
         (noise : number) (st : nat),
    (exists ps st', classifySpiralData numSamples noise st = Some (ps, st')
       /\ two_classes (ceil_half numSamples) ps)
    /\ (forall ps st', classifyTwoGaussData fuel numSamples noise st = Some (ps, st') ->
          two_classes (ceil_half numSamples) ps)
    /\ (forall ps st', classifyCsvDummy1 fuel numSamples noise st = Some (ps, st') ->
          two_classes 80 ps)
    /\ (accepting fuel ->
        exists ps st', classifyTwoGaussData fuel numSamples noise st = Some (ps, st')
          /\ two_classes (ceil_half numSamples) ps)
    /\ (accepting fuel ->
        exists ps st', classifyCsvDummy1 fuel numSamples noise st = Some (ps, st')
          /\ two_classes 80 ps).
Proof.
  intros math source fuel numSamples noise st. split; [| split; [| split; [| split]]].
  - destruct (classifySpiralData_shape numSamples noise st)
      as (ps1 & ps2 & E & L1 & L2 & F1 & F2).
    eexists _, _. split; [exact E |]. exists ps1, ps2. auto.
  - apply classifyTwoGaussData_classes.
  - apply classifyCsvDummy1_classes.
  - intros Hacc.
    destruct (classifyTwoGaussData_returns fuel numSamples noise st Hacc) as (ps & st' & E).
    exists ps, st'. split; [exact E |]. exact (classifyTwoGaussData_classes _ _ _ _ _ _ E).
  - intros Hacc.
    destruct (classifyCsvDummy1_returns fuel numSamples noise st Hacc) as (ps & st' & E).
    exists ps, st'. split; [exact E |]. exact (classifyCsvDummy1_classes _ _ _ _ _ _ E).
Qed.

(** The noise moves no point of [regressPlane], [regressGaussian],
    [classifyXORData] and [classifyCircleData]: on the same tape, two noise
    levels give the same stored coordinates (and read the same draws);
    only the labels depend on the noise. *)
Theorem noise_leaves_coordinates :
  forall (math : MathLib) (source : RandomSource) (numSamples : nat)
         (noise1 noise2 : number) (st : nat),
    (exists ps1 ps2 st',
       regressPlane numSamples noise1 st = Some (ps1, st')
       /\ regressPlane numSamples noise2 st = Some (ps2, st')
       /\ map coords ps1 = map coords ps2)
    /\ (exists ps1 ps2 st',
          regressGaussian numSamples noise1 st = Some (ps1, st')
          /\ regressGaussian numSamples noise2 st = Some (ps2, st')
          /\ map coords ps1 = map coords ps2)
    /\ (exists ps1 ps2 st',
          classifyXORData numSamples noise1 st = Some (ps1, st')
          /\ classifyXORData numSamples noise2 st = Some (ps2, st')
          /\ map coords ps1 = map coords ps2)
    /\ (exists ps1 ps2 st',
          classifyCircleData numSamples noise1 st = Some (ps1, st')
          /\ classifyCircleData numSamples noise2 st = Some (ps2, st')
          /\ map coords ps1 = map coords ps2).
Proof.
  intros math source numSamples noise1 noise2 st. split; [| split; [| split]].
  - destruct (regressPlane_coords numSamples noise1 st) as (ps1 & E1 & C1).
    destruct (regressPlane_coords numSamples noise2 st) as (ps2 & E2 & C2).
    eexists ps1, ps2, _. rewrite C1, C2.
    split; [exact E1 | split; [exact E2 | reflexivity]].
  - destruct (regressGaussian_coords numSamples noise1 st) as (ps1 & E1 & C1).
    destruct (regressGaussian_coords numSamples noise2 st) as (ps2 & E2 & C2).
    eexists ps1, ps2, _. rewrite C1, C2.
    split; [exact E1 | split; [exact E2 | reflexivity]].
  - destruct (classifyXORData_coords numSamples noise1 st) as (ps1 & E1 & C1).
    destruct (classifyXORData_coords numSamples noise2 st) as (ps2 & E2 & C2).
    eexists ps1, ps2, _. rewrite C1, C2.
    split; [exact E1 | split; [exact E2 | reflexivity]].
  - destruct (classifyCircleData_coords numSamples noise1 st) as (ps1 & E1 & C1).
    destruct (classifyCircleData_coords numSamples noise2 st) as (ps2 & E2 & C2).
    eexists ps1, ps2, _. rewrite C1, C2.
    split; [exact E1 | split; [exact E2 | reflexivity]].
Qed.

(** The coordinates that [classifyXORData] stores keep more than [0.3] away
    from the axes on the positive side and at least [0.3] on the negative
    side, within [5.3] of them.  With no noise the label is [1] exactly
    when the stored coordinates have the same sign and [-1] exactly when
    they have not; their product is never zero. *)
Theorem classifyXORData_padded :
  forall (source : RandomSource) (numSamples : nat) (nq : Q) (st : nat),
    exists ps st',
      classifyXORData numSamples (Fin nq) st = Some (ps, st')
      /\ Forall (xor_stored nq) ps.
Proof.
  intros source numSamples nq st.
  destruct (classifyXORData_stored numSamples nq st) as (ps & E & F). eauto.
Qed.



(** [regressCsvDummy2] returns 200 points.  The noise moves the stored
    coordinates, by at most [noise] from the square of side 12; the label
    is the one of the stored coordinates, the hill of larger absolute
    value, and lies within [[-1, 1]]. *)
Theorem regressCsvDummy2_labels :
  forall (math : MathLib) (source : RandomSource) (numSamples : nat) (nq : Q) (st : nat),
    0 <= nq ->
    exists ps st',
      regressCsvDummy2 numSamples (Fin nq) st = Some (ps, st')
      /\ length ps = 200%nat
      /\ Forall (dummy2_point nq) ps.
Proof.
  intros math source numSamples nq st Hnq.
  destruct (regressCsvDummy2_points numSamples nq st Hnq) as (ps & E & L & F). eauto.
Qed.

Lemma regressCsvDummy2_labels_witness :
  0 <= 0.5
  /\ exists ps st',
       regressCsvDummy2 (math := ref_math) (source := zigzag_tape) 7 (Fin 0.5) 0%nat
       = Some (ps, st')
       /\ length ps = 200%nat
       /\ Forall (dummy2_point (math := ref_math) 0.5) ps.
Proof.
  split; [vm_compute; discriminate |].
  apply (regressCsvDummy2_labels ref_math zigzag_tape 7 0.5 0%nat). vm_compute; discriminate.
Defined.

(** [classifyCsvDummy2] reads five draws per point; the first one chooses
    the ring, and the label with it: [1] for a draw below [0.5] (the inner
    ring, of radius within [0.2] of [1]), [-1] otherwise (the outer ring,
    of radius within [0.3] of [3]).  The noise moves the point afterwards
    and does not change the label. *)
Theorem classifyCsvDummy2_label_of_ring :
  forall (math : MathLib) (source : RandomSource) (numSamples : nat) (noise : number)
         (st : nat),
    exists ps,
      classifyCsvDummy2 numSamples noise st = Some (ps, (st + 5 * 160)%nat)
      /\ length ps = 160%nat
      /\ forall j p, ps !! j = Some p ->
           (draw (st + 5 * j) < 0.5 /\ label p = Fin 1)
           \/ (0.5 <= draw (st + 5 * j) /\ label p = Fin (-1)).
Proof. intros. apply classifyCsvDummy2_rings. Qed.

(** ** [shuffle] *)

(** The turn of [shuffle] for the position [counter] moves there the
    element at the index [k = floor (draw * (counter + 1))], which is at
    most [counter], and the later turns never touch the positions from
    [counter] on: after the loop the position [counter] holds what was at
    [k], and the positions after it hold what they held. *)
Theorem shuffle_loop_settles_position :
  forall (A : Type) (undefined : A) (source : RandomSource)
         (counter : nat) (array : list A) (st : nat),
    (S counter <= length array)%nat ->
    exists (array' : list A) (k : nat),
      shuffle_loop undefined (S counter) array st = Some (array', (st + S counter)%nat)
      /\ Math_floor (Fin (draw st) * of_nat (S counter))%num = of_nat k
      /\ (k <= counter)%nat
      /\ array' !! counter = array !! k
      /\ forall n, (counter < n)%nat -> array' !! n = array !! n.
Proof.
  intros A undefined source counter array st Hc.
  cbn [shuffle_loop]. rewrite bind_Math_random. cbv zeta.
  destruct (draw_range st) as [H0 H1].
  destruct (random_index (draw st) (S counter) H0 H1 ltac:(lia)) as (k & Ek & Hk).
  rewrite Ek.
  destruct (swap_permutes undefined array counter k ltac:(lia) ltac:(lia)) as [_ Hlen].
  destruct (swap_lookup undefined array counter k) with (n := 0%nat) as [Hat _];
    [lia | lia |].
  cbv zeta in Hlen, Hat.
  destruct (shuffle_loop_frame undefined counter _ (S st) ltac:(rewrite Hlen; lia))
    as (array' & E & Hf).
  exists array', k. rewrite E.
  split; [f_equal; f_equal; lia |]. split; [reflexivity |]. split; [lia |].
  split.
  - rewrite Hf by lia. exact Hat.
  - intros n Hn. rewrite Hf by lia.
    apply (swap_lookup undefined array counter k n); lia.
Qed.

Lemma shuffle_loop_settles_position_witness :
  (3 <= length [10; 20; 30]%nat)%nat
  /\ exists (array' : list nat) (k : nat),
       shuffle_loop 0%nat (source := tape_of (fun _ => 0.05)) 3 [10; 20; 30]%nat 0%nat
       = Some (array', 3%nat)
       /\ Math_floor (Fin (draw (RandomSource := tape_of (fun _ => 0.05)) 0%nat)
                      * of_nat 3)%num = of_nat k
       /\ (k <= 2)%nat
       /\ array' !! 2%nat = [10; 20; 30]%nat !! k
       /\ forall n, (2 < n)%nat -> array' !! n = [10; 20; 30]%nat !! n.
Proof.
  split; [simpl; lia |].
  apply (shuffle_loop_settles_position nat 0%nat (tape_of (fun _ => 0.05)) 2
           [10; 20; 30]%nat 0%nat).
  simpl; lia.
Defined.

(** [shuffle] of the empty array reads no draw and returns it; [shuffle] of
    an array of one element reads one draw and returns it unchanged. *)
Theorem shuffle_short_arrays :
  forall (A : Type) (undefined : A) (source : RandomSource) (a : A) (st : nat),
    shuffle undefined [] st = Some ([], st)
    /\ shuffle undefined [a] st = Some ([a], S st).
Proof.
  intros A undefined source a st. split; [reflexivity |].
  unfold shuffle.
  destruct (shuffle_loop_permutes undefined (length [a]) [a] st (le_n _))
    as (array' & E & Hp & _).
  rewrite E. apply Permutation_singleton_r in Hp. subst array'.
  simpl. do 2 f_equal. lia.
Qed.

(** ** The importer *)

(** When the text parses, the importer writes nothing to the console and
    returns at most one point per row; no coordinate and no label of a
    returned point is [NaN], and for a classification every label is [1]
    or [-1]. *)
Theorem import_returns_numbers :
  forall (parse : string -> completion (list csv_row)) (csvText : string)
         (isRegression : bool) (rows : list csv_row),
    parse csvText = Normal rows ->
    exists out,
      outcome (parseCsvTextToExamples parse csvText isRegression) = Normal out
      /\ console (parseCsvTextToExamples parse csvText isRegression) = []
      /\ (length out <= length rows)%nat
      /\ Forall no_NaN out
      /\ (isRegression = false -> Forall unit_label out).
Proof.
  intros parse csvText isRegression rows Hparse.
  unfold parseCsvTextToExamples. rewrite Hparse. cbn [try_catch outcome console].
  destruct (fold_import_row isRegression rows []) as (ps & E & Hps).
  exists ps. rewrite E. split; [reflexivity |]. split; [reflexivity |].
  now apply imports_facts.
Qed.

Lemma import_returns_numbers_witness :
  csv_parse scenario_text = Normal (parsed_rows scenario_text)
  /\ exists out,
       outcome (parseCsvTextToExamples csv_parse scenario_text false) = Normal out
       /\ console (parseCsvTextToExamples csv_parse scenario_text false) = []
       /\ (length out <= length (parsed_rows scenario_text))%nat
       /\ Forall no_NaN out
       /\ (false = false -> Forall unit_label out).
Proof.
  split; [reflexivity |].
  apply (import_returns_numbers csv_parse scenario_text false). reflexivity.
Defined.

(** The importer reads the columns [x], [y], [values] and [value] only: two
    documents whose rows agree on them give the same points, whatever
    other columns they have. *)
Theorem import_ignores_other_columns :
  forall (parse parse' : string -> completion (list csv_row)) (csvText csvText' : string)
         (isRegression : bool) (rows rows' : list csv_row),
    parse csvText = Normal rows ->
    parse' csvText' = Normal rows' ->
    Forall2 same_fields rows rows' ->
    outcome (parseCsvTextToExamples parse csvText isRegression)
    = outcome (parseCsvTextToExamples parse' csvText' isRegression).
Proof.
  intros parse parse' csvText csvText' isRegression rows rows' H H' Hsame.
  unfold parseCsvTextToExamples. rewrite H, H'. cbn [try_catch outcome]. f_equal.
  rewrite !fold_import_row_concat. simpl. f_equal. clear H H'.
  induction Hsame as [| row row' rows rows' Hrow _ IH]; [reflexivity |].
  simpl. now rewrite IH, (import_row_same_fields isRegression row row' Hrow).
Qed.

Lemma import_ignores_other_columns_witness :
  csv_parse scenario_text = Normal (parsed_rows scenario_text)
  /\ csv_parse wide_text = Normal (parsed_rows wide_text)
  /\ Forall2 same_fields (parsed_rows scenario_text) (parsed_rows wide_text)
  /\ outcome (parseCsvTextToExamples csv_parse scenario_text true)
     = outcome (parseCsvTextToExamples csv_parse wide_text true).
Proof.
  assert (Hsame : Forall2 same_fields (parsed_rows scenario_text) (parsed_rows wide_text)).
  { repeat constructor. }
  split; [reflexivity |]. split; [reflexivity |]. split; [exact Hsame |].
  exact (import_ignores_other_columns csv_parse csv_parse scenario_text wide_text true
           _ _ eq_refl eq_refl Hsame).
Defined.

(** A row that has a [values] field never uses its [value] field: the
    callback adds the same point, or none, whatever [value] holds; and when
    [values] does not coerce to a number the row is skipped, even with a
    number in [value]. *)
Theorem values_hides_value :
  forall (isRegression : bool) (out : list Example2D) (row : csv_row) (s v : string),
    row !! "values" = Some s ->
    import_row isRegression out (<["value" := v]> row) = import_row isRegression out row
    /\ (isNaN (parseFloat s) = true ->
        import_row isRegression out (<["value" := v]> row) = out).
Proof.
  intros isRegression out row s v Hs.
  destruct (value_insert_fields row s v Hs) as (Ex & Ey & Ev).
  unfold import_row. rewrite Ex, Ey, Ev, Hs. cbv zeta. cbn [field_number].
  split; [reflexivity |].
  intros ->. now rewrite !orb_true_r.
Qed.

Lemma values_hides_value_witness :
  let row : csv_row := row_object ["x"; "y"; "values"]%string ["1"; "2"; "abc"]%string in
  row !! "values" = Some "abc"%string
  /\ import_row true [] (<["value" := "5"%string]> row) = import_row true [] row
  /\ (isNaN (parseFloat "abc") = true ->
      import_row true [] (<["value" := "5"%string]> row) = []).
Proof.
  split; [reflexivity |].
  apply (values_hides_value true []
           (row_object ["x"; "y"; "values"]%string ["1"; "2"; "abc"]%string) "abc" "5").
  reflexivity.
Defined.

(** The importer keeps the order of the rows and treats each row on its
    own: the points of a document whose rows are those of two documents,
    one after the other, are the points of the first followed by the
    points of the second. *)
Theorem import_of_appended_rows :
  forall (parse : string -> completion (list csv_row)) (text1 text2 text : string)
         (isRegression : bool) (rows1 rows2 : list csv_row),
    parse text1 = Normal rows1 ->
    parse text2 = Normal rows2 ->
    parse text = Normal (rows1 ++ rows2) ->
    exists out1 out2,
      outcome (parseCsvTextToExamples parse text1 isRegression) = Normal out1
      /\ outcome (parseCsvTextToExamples parse text2 isRegression) = Normal out2
      /\ outcome (parseCsvTextToExamples parse text isRegression) = Normal (out1 ++ out2).
Proof.
  intros parse text1 text2 text isRegression rows1 rows2 H1 H2 H.
  unfold parseCsvTextToExamples. rewrite H1, H2, H. cbn [try_catch outcome].
  eexists _, _. split; [reflexivity |]. split; [reflexivity |].
  rewrite !fold_import_row_concat. simpl. now rewrite map_app, concat_app.
Qed.

Lemma import_of_appended_rows_witness :
  csv_parse first_text = Normal (parsed_rows first_text)
  /\ csv_parse second_text = Normal (parsed_rows second_text)
  /\ csv_parse scenario_text = Normal (parsed_rows first_text ++ parsed_rows second_text)
  /\ exists out1 out2,
       outcome (parseCsvTextToExamples csv_parse first_text false) = Normal out1
       /\ outcome (parseCsvTextToExamples csv_parse second_text false) = Normal out2
       /\ outcome (parseCsvTextToExamples csv_parse scenario_text false)
          = Normal (out1 ++ out2).
Proof.
  assert (H : csv_parse scenario_text
              = Normal (parsed_rows first_text ++ parsed_rows second_text))
    by (vm_compute; reflexivity).
  split; [reflexivity |]. split; [reflexivity |]. split; [exact H |].
  exact (import_of_appended_rows csv_parse first_text second_text scenario_text false
           _ _ eq_refl eq_refl H).
Defined.

(** The points of a classification are the points of the regression on the
    same text with the threshold applied to the labels; the threshold
    leaves the labels [1] and [-1] as they are, so that applying it twice
    is applying it once. *)
Theorem classification_thresholds_regression :
  forall (parse : string -> completion (list csv_row)) (csvText : string)
         (rows : list csv_row),
    parse csvText = Normal rows ->
    (exists out,
       outcome (parseCsvTextToExamples parse csvText true) = Normal out
       /\ outcome (parseCsvTextToExamples parse csvText false) = Normal (map relabel out))
    /\ (forall p, relabel (relabel p) = relabel p)
    /\ threshold 1 = Fin 1 /\ threshold (-1) = Fin (-1).
Proof.
  intros parse csvText rows Hparse. split; [| split].
  - unfold parseCsvTextToExamples. rewrite Hparse. cbn [try_catch outcome].
    eexists. split; [reflexivity |]. f_equal.
    rewrite !fold_import_row_concat. simpl. clear Hparse.
    induction rows as [| row rows IH]; [reflexivity |].
    simpl. now rewrite map_app, <- IH, import_row_relabel.
  - intros p. unfold relabel, threshold. cbn [x y label].
    destruct (label p <=? 0)%num; reflexivity.
  - split; reflexivity.
Qed.

Lemma classification_thresholds_regression_witness :
  csv_parse scenario_text = Normal (parsed_rows scenario_text)
  /\ exists out,
       outcome (parseCsvTextToExamples csv_parse scenario_text true) = Normal out
       /\ outcome (parseCsvTextToExamples csv_parse scenario_text false)
          = Normal (map relabel out).
Proof.
  split; [reflexivity |].
  exact (proj1 (classification_thresholds_regression csv_parse scenario_text _ eq_refl)).
Defined.

(** ** [generatorFromExamples] *)

(** The generator keeps the backing array itself, not its contents at the
    time [generatorFromExamples] was called: a point pushed to the backing
    collection between two calls is in the collection that the second call
    returns, and not in the one that the first call returned. *)
Theorem generator_reads_the_current_array :
  forall (h : heap) (examples : loc) (elems : list loc) (v : loc)
         (numSamples1 numSamples2 : nat) (noise1 noise2 : number),
    h !! examples = Some (ArrayObj elems) ->
    exists (r1 : loc) (h1 h2 : heap) (r2 : loc) (h3 : heap),
      generatorFromExamples examples numSamples1 noise1 h = Some (r1, h1)
      /\ apply_array_op examples (Push v) h1 = Some h2
      /\ generatorFromExamples examples numSamples2 noise2 h2 = Some (r2, h3)
      /\ h3 !! examples = Some (ArrayObj (elems ++ [v]))
      /\ h3 !! r1 = Some (ArrayObj elems)
      /\ h3 !! r2 = Some (ArrayObj (elems ++ [v])).
Proof.
  intros h examples elems v n1 n2 noise1 noise2 Hex.
  unfold generatorFromExamples.
  destruct (array_slice_new examples elems h Hex) as (r1 & E1 & F1).
  set (h1 := <[r1 := ArrayObj elems]> h) in *.
  assert (N1 : r1 ≠ examples) by (intros ->; congruence).
  assert (Hex1 : h1 !! examples = Some (ArrayObj elems)).
  { unfold h1. now rewrite lookup_insert_ne. }
  set (h2 := <[examples := ArrayObj (elems ++ [v])]> h1).
  assert (E2 : apply_array_op examples (Push v) h1 = Some h2).
  { unfold apply_array_op. now rewrite Hex1. }
  assert (Hex2 : h2 !! examples = Some (ArrayObj (elems ++ [v])))
    by apply lookup_insert_eq.
  destruct (array_slice_new examples (elems ++ [v]) h2 Hex2) as (r2 & E3 & F3).
  assert (N2 : r2 ≠ examples) by (intros ->; congruence).
  assert (N12 : r1 ≠ r2).
  { intros ->. unfold h2, h1 in F3.
    rewrite lookup_insert_ne, lookup_insert_eq in F3 by auto. discriminate. }
  exists r1, h1, h2, r2, (<[r2 := ArrayObj (elems ++ [v])]> h2).
  split; [exact E1 |]. split; [exact E2 |]. split; [exact E3 |].
  split; [| split].
  - rewrite lookup_insert_ne by auto. exact Hex2.
  - unfold h2, h1. rewrite !lookup_insert_ne by auto. apply lookup_insert_eq.
  - apply lookup_insert_eq.
Qed.

Lemma generator_reads_the_current_array_witness :
  example_heap !! 0%nat = Some (ArrayObj [1%nat])
  /\ exists (r1 : loc) (h1 h2 : heap) (r2 : loc) (h3 : heap),
       generatorFromExamples 0%nat 3%nat (Fin 0) example_heap = Some (r1, h1)
       /\ apply_array_op 0%nat (Push 1%nat) h1 = Some h2
       /\ generatorFromExamples 0%nat 5%nat (Fin 0.5) h2 = Some (r2, h3)
       /\ h3 !! 0%nat = Some (ArrayObj ([1%nat] ++ [1%nat]))
       /\ h3 !! r1 = Some (ArrayObj [1%nat])
       /\ h3 !! r2 = Some (ArrayObj ([1%nat] ++ [1%nat])).
Proof.
  split; [reflexivity |].
  apply (generator_reads_the_current_array example_heap 0%nat [1%nat] 1%nat
           3%nat 5%nat (Fin 0) (Fin 0.5)).
  reflexivity.
Defined.

(** A returned collection and the backing collection hold the same point
    objects: after any writes to the fields of any points, both arrays are
    as they were and both show the same points. *)
Theorem copy_and_backing_show_the_same_points :
  forall (h : heap) (examples : loc) (elems : list loc) (numSamples : nat)
         (noise : number) (ws : list (loc * point_field * number)),
    h !! examples = Some (ArrayObj elems) ->
    exists (r : loc) (h1 : heap),
      generatorFromExamples examples numSamples noise h = Some (r, h1)
      /\ r ≠ examples
      /\ forall h2, apply_point_writes ws h1 = Some h2 ->
           h2 !! r = Some (ArrayObj elems)
           /\ h2 !! examples = Some (ArrayObj elems)
           /\ read_collection r h2 = read_collection examples h2.
Proof.
  intros h examples elems numSamples noise ws Hex.
  unfold generatorFromExamples.
  destruct (array_slice_new examples elems h Hex) as (r & E & F).
  assert (N : r ≠ examples) by (intros ->; congruence).
  exists r, (<[r := ArrayObj elems]> h).
  split; [exact E |]. split; [exact N |].
  intros h2 H2.
  assert (Hr : h2 !! r = Some (ArrayObj elems)).
  { apply (apply_point_writes_keep_arrays ws _ _ _ _ H2). apply lookup_insert_eq. }
  assert (He : h2 !! examples = Some (ArrayObj elems)).
  { apply (apply_point_writes_keep_arrays ws _ _ _ _ H2).
    now rewrite lookup_insert_ne. }
  split; [exact Hr |]. split; [exact He |].
  unfold read_collection. now rewrite Hr, He.
Qed.

Lemma copy_and_backing_show_the_same_points_witness :
  example_heap !! 0%nat = Some (ArrayObj [1%nat])
  /\ exists (r : loc) (h1 : heap),
       generatorFromExamples 0%nat 3%nat (Fin 0) example_heap = Some (r, h1)
       /\ r ≠ 0%nat
       /\ forall h2,
            apply_point_writes [(1%nat, FieldX, Fin 99); (1%nat, FieldLabel, Fin (-1))] h1
            = Some h2 ->
            h2 !! r = Some (ArrayObj [1%nat])
            /\ h2 !! 0%nat = Some (ArrayObj [1%nat])
            /\ read_collection r h2 = read_collection 0%nat h2.
Proof.
  split; [reflexivity |].
  apply (copy_and_backing_show_the_same_points example_heap 0%nat [1%nat] 3%nat (Fin 0)
           [(1%nat, FieldX, Fin 99); (1%nat, FieldLabel, Fin (-1))]).
  reflexivity.
Defined.

(** ** Draws read *)

(** The generators that do not call [normalRandom] read a number of draws
    that depends on [numSamples] only, not on the noise nor on the draws:
    four per point for [regressPlane], [regressGaussian], [classifyXORData]
    and [classifyCircleData], two per point for [classifySpiralData] (for
    the two-class generators the points are [2 ceil (numSamples / 2)]),
    800 for each of [classifyCsvDummy2], [regressCsvDummy1] and
    [regressCsvDummy2]. *)
Theorem draws_read :
  forall (math : MathLib) (source : RandomSource) (numSamples : nat)
         (noise : number) (st : nat),
    (exists ps, regressPlane numSamples noise st = Some (ps, (st + 4 * numSamples)%nat))
    /\ (exists ps, regressGaussian numSamples noise st
                   = Some (ps, (st + 4 * numSamples)%nat))
    /\ (exists ps, classifyXORData numSamples noise st
                   = Some (ps, (st + 4 * numSamples)%nat))
    /\ (exists ps, classifyCircleData numSamples noise st
                   = Some (ps, (st + 4 * (2 * ceil_half numSamples))%nat))
    /\ (exists ps, classifySpiralData numSamples noise st
                   = Some (ps, (st + 2 * (2 * ceil_half numSamples))%nat))
    /\ (exists ps, classifyCsvDummy2 numSamples noise st = Some (ps, (st + 800)%nat))
    /\ (exists ps, regressCsvDummy1 numSamples noise st = Some (ps, (st + 800)%nat))
    /\ (exists ps, regressCsvDummy2 numSamples noise st = Some (ps, (st + 800)%nat)).
Proof.
  intros math source numSamples noise st.
  split; [| split; [| split; [| split; [| split; [| split; [| split]]]]]].
  - destruct (regressPlane_coords numSamples noise st) as (ps & E & _). eauto.
  - destruct (regressGaussian_coords numSamples noise st) as (ps & E & _). eauto.
  - destruct (classifyXORData_coords numSamples noise st) as (ps & E & _). eauto.
  - destruct (classifyCircleData_shape numSamples noise st) as (ps & E & _).
    exists ps. rewrite E. do 2 f_equal. lia.
  - destruct (classifySpiralData_shape numSamples noise st) as (ps1 & ps2 & E & _).
    exists (ps1 ++ ps2). rewrite E. do 2 f_equal. lia.
  - destruct (classifyCsvDummy2_shape numSamples noise st) as (ps & E & _). eauto.
  - destruct (regressCsvDummy1_shape numSamples noise st) as (ps & E & _). eauto.
  - destruct (regressCsvDummy2_shape numSamples noise st) as (ps & E & _). eauto.
Qed.

(** ** The variance of [classifyTwoGaussData] *)

(** [classifyTwoGaussData] draws both clusters with the variance
    [0.5 + 7 noise], the scale of [[0, 0.5]] to [[0.5, 4]], which is not
    clamped: [0.5] without noise, [4] for the noise [0.5], and at least
    [0.5] for every noise that is not negative. *)
Theorem classifyTwoGaussData_variance :
  forall (math : MathLib) (source : RandomSource) (fuel numSamples : nat) (nq : Q)
         (st : nat),
    exists v : Q,
      v == 0.5 + 7 * nq
      /\ (0 <= nq -> 0.5 <= v)
      /\ classifyTwoGaussData fuel numSamples (Fin nq) st
         = (let* points := genGauss fuel numSamples (Fin v) 2 2 1 [] in
            let* points := genGauss fuel numSamples (Fin v) (-2) (-2) (-1) points in
            ret points) st.
Proof.
  intros math source fuel numSamples nq st.
  assert (Hv : exists v, d3_scale_linear 0 0.5 0.5 4 false (Fin nq) = Fin v
                         /\ v == 0.5 + 7 * nq).
  { unfold d3_scale_linear. cbn [num_sub num_opp num_add].
    rewrite num_div_Fin by (intros E; vm_compute in E; discriminate).
    cbn [num_mul num_sub num_add num_opp].
    eexists. split; [reflexivity |]. field. }
  destruct Hv as (v & Ev & Hv).
  exists v. split; [exact Hv |]. split; [intros Hnq; lra |].
  unfold classifyTwoGaussData. cbv zeta. now rewrite Ev.
Qed.

